(** * CarTrace Pro service worker: offline layer

    A shallow embedding of [service-worker.js].  Each listener and each
    async function of the script is a computation in a small state and
    exception monad over a [World] that holds what the script can touch:
    the Cache Storage, the requests handed to [fetch], the console, the
    shown notifications and the window clients.

    What the browser provides (the network, the JSON codec, URL parsing)
    is a [Platform]; every definition and theorem is stated for an
    arbitrary one. *)

From Stdlib Require Import String Ascii List Bool Arith ZArith.
From Stdlib Require Import DecimalString Lia.
Import ListNotations.
Set Warnings "-register-all".
Local Open Scope string_scope.
Local Open Scope list_scope.

(** ** String methods used by the script *)

Module Str.

(** [s.startsWith(p)] *)
Definition startsWith (s p : string) : bool := String.prefix p s.

(** [s.endsWith(p)] *)
Definition endsWith (s p : string) : bool :=
  let n := String.length s in
  let m := String.length p in
  Nat.leb m n && String.eqb (String.substring (n - m) m s) p.

(** [s.includes(p)] *)
Fixpoint includes (s p : string) : bool :=
  String.prefix p s ||
  match s with
  | EmptyString => false
  | String _ s' => includes s' p
  end.

Definition lower_ascii (c : ascii) : ascii :=
  let n := nat_of_ascii c in
  if Nat.leb 65 n && Nat.leb n 90 then ascii_of_nat (n + 32) else c.

(** [s.toLowerCase()] on ASCII, used for header names *)
Fixpoint lower (s : string) : string :=
  match s with
  | EmptyString => EmptyString
  | String c s' => String (lower_ascii c) (lower s')
  end.

End Str.

(** ** JavaScript values that travel through JSON *)

(** Numbers are restricted to integers; the script never computes with
    them, it only tests them for truthiness. *)
Inductive json : Type :=
| JNull
| JBool (b : bool)
| JNum (n : Z)
| JStr (s : string)
| JArr (items : list json)
| JObj (fields : list (string * json)).

(** JavaScript truthiness, as used by [||]. *)
Definition truthy (v : json) : bool :=
  match v with
  | JNull => false
  | JBool b => b
  | JNum n => negb (Z.eqb n 0)
  | JStr s => negb (String.eqb s "")
  | JArr _ => true
  | JObj _ => true
  end.

(** [v || d] where [v] may be [undefined] ([None]). *)
Definition js_or (v : option json) (d : json) : json :=
  match v with
  | Some x => if truthy x then x else d
  | None => d
  end.

Fixpoint assoc {A : Type} (k : string) (l : list (string * A)) : option A :=
  match l with
  | [] => None
  | (k', v) :: l' => if String.eqb k k' then Some v else assoc k l'
  end.

(** [s === v] for a string [s]. *)
Definition strict_eq_string (s : string) (v : json) : bool :=
  match v with
  | JStr s' => String.eqb s s'
  | _ => false
  end.

(** ** HTTP data *)

(** A [Headers] object: names are kept in lower case, one value a name. *)
Definition Headers := list (string * string).

Definition headers_get (name : string) (h : Headers) : option string :=
  assoc (Str.lower name) h.

Definition headers_set (name value : string) (h : Headers) : Headers :=
  let n := Str.lower name in
  if existsb (fun e => String.eqb (fst e) n) h
  then map (fun e => if String.eqb (fst e) n then (n, value) else e) h
  else h ++ [(n, value)].

Record Request := {
  req_url : string;
  req_method : string;
  req_headers : Headers;
  req_body : option string
}.

Record Response := {
  status : nat;
  statusText : string;
  headers : Headers;
  body : string
}.

(** [new Response(text, {status, statusText})]: a string body brings its
    own content type. *)
Definition text_Response (text : string) (st : nat) (stText : string)
  : Response :=
  {| status := st; statusText := stText;
     headers := [("content-type", "text/plain;charset=UTF-8")];
     body := text |}.

(** [response.ok]: the status is in the range 200-299. *)
Definition ok (r : Response) : bool :=
  Nat.leb 200 (status r) && Nat.leb (status r) 299.

Inductive error : Type :=
| TypeError
| SyntaxError
| FetchFailed.

(** ** The browser *)

Class Platform := {
  (** what [fetch] settles to: [None] when the promise rejects *)
  network : Request -> option Response;
  (** [JSON.parse]: [None] when it throws *)
  JSON_parse : string -> option json;
  JSON_stringify : json -> string;
  (** [new URL(u).pathname] *)
  URL_pathname : string -> string;
  (** a URL string resolved against the worker's location *)
  URL_resolve : string -> string;
  (** whether [clients.openWindow] is defined *)
  has_openWindow : bool
}.

(** ** The Cache Storage *)

(** A cache keeps its entries in insertion order.  Its keys are GET
    requests, so an entry is a URL and the response stored for it. *)
Definition Cache := list (string * Response).

(** [caches]: the named caches in creation order. *)
Definition CacheStorage := list (string * Cache).

Definition is_GET (r : Request) : bool := String.eqb (req_method r) "GET".

Definition store_match (url : string) (c : Cache) : option Response :=
  assoc url c.

Definition store_delete (url : string) (c : Cache) : Cache :=
  filter (fun e => negb (String.eqb (fst e) url)) c.

(** A put drops the entry it replaces and appends the new one. *)
Definition store_put (url : string) (r : Response) (c : Cache) : Cache :=
  store_delete url c ++ [(url, r)].

Definition cs_has (name : string) (cs : CacheStorage) : bool :=
  existsb (fun e => String.eqb (fst e) name) cs.

Definition cs_get (name : string) (cs : CacheStorage) : Cache :=
  match assoc name cs with
  | Some c => c
  | None => []
  end.

Fixpoint cs_update (name : string) (f : Cache -> Cache) (cs : CacheStorage)
  : CacheStorage :=
  match cs with
  | [] => []
  | (n, c) :: cs' =>
      if String.eqb name n then (n, f c) :: cs'
      else (n, c) :: cs_update name f cs'
  end.

Definition cs_open (name : string) (cs : CacheStorage) : CacheStorage :=
  if cs_has name cs then cs else cs ++ [(name, [])].

Definition cs_delete (name : string) (cs : CacheStorage) : CacheStorage :=
  filter (fun e => negb (String.eqb (fst e) name)) cs.

(** [caches.match]: the first cache, in creation order, with a match. *)
Fixpoint cs_match (url : string) (cs : CacheStorage) : option Response :=
  match cs with
  | [] => None
  | (_, c) :: cs' =>
      match store_match url c with
      | Some r => Some r
      | None => cs_match url cs'
      end
  end.

(** ** Notifications and window clients *)

Record Notification := {
  n_title : json;
  n_body : json;
  n_icon : string;
  n_badge : string;
  n_vibrate : list nat;
  n_tag : json;
  n_data : json;
  n_actions : list (string * string)
}.

Record Client := { client_url : string }.

Inductive UiAction : Type :=
| Closed (n : Notification)
| Focused (c : Client)
| Opened (url : json).

(** ** The world a handler runs in *)

Record World := {
  caches : CacheStorage;
  fetch_log : list Request;
  console : list string;
  unhandled : list error;
  skipped_waiting : bool;
  claimed : bool;
  windows : list Client;
  shown : list Notification;
  ui : list UiAction
}.

Definition with_caches (f : CacheStorage -> CacheStorage) (w : World) :=
  {| caches := f (caches w); fetch_log := fetch_log w; console := console w;
     unhandled := unhandled w; skipped_waiting := skipped_waiting w;
     claimed := claimed w; windows := windows w; shown := shown w;
     ui := ui w |}.

Definition with_fetch (r : Request) (w : World) :=
  {| caches := caches w; fetch_log := fetch_log w ++ [r];
     console := console w; unhandled := unhandled w;
     skipped_waiting := skipped_waiting w; claimed := claimed w;
     windows := windows w; shown := shown w; ui := ui w |}.

Definition with_console (m : string) (w : World) :=
  {| caches := caches w; fetch_log := fetch_log w;
     console := console w ++ [m]; unhandled := unhandled w;
     skipped_waiting := skipped_waiting w; claimed := claimed w;
     windows := windows w; shown := shown w; ui := ui w |}.

Definition with_unhandled (e : error) (w : World) :=
  {| caches := caches w; fetch_log := fetch_log w; console := console w;
     unhandled := unhandled w ++ [e];
     skipped_waiting := skipped_waiting w; claimed := claimed w;
     windows := windows w; shown := shown w; ui := ui w |}.

Definition with_skipped (w : World) :=
  {| caches := caches w; fetch_log := fetch_log w; console := console w;
     unhandled := unhandled w; skipped_waiting := true;
     claimed := claimed w; windows := windows w; shown := shown w;
     ui := ui w |}.

Definition with_claimed (w : World) :=
  {| caches := caches w; fetch_log := fetch_log w; console := console w;
     unhandled := unhandled w; skipped_waiting := skipped_waiting w;
     claimed := true; windows := windows w; shown := shown w; ui := ui w |}.

Definition with_shown (n : Notification) (w : World) :=
  {| caches := caches w; fetch_log := fetch_log w; console := console w;
     unhandled := unhandled w; skipped_waiting := skipped_waiting w;
     claimed := claimed w; windows := windows w; shown := shown w ++ [n];
     ui := ui w |}.

Definition with_ui (a : UiAction) (w : World) :=
  {| caches := caches w; fetch_log := fetch_log w; console := console w;
     unhandled := unhandled w; skipped_waiting := skipped_waiting w;
     claimed := claimed w; windows := windows w; shown := shown w;
     ui := ui w ++ [a] |}.

(** ** Computations: state and exceptions *)

(** How a function call or a promise ends. *)
Inductive outcome (A : Type) : Type :=
| Returned (a : A)
| Threw (e : error).
Arguments Returned {A} a.
Arguments Threw {A} e.

(** The effects made before a throw stay made. *)
Definition Task (A : Type) : Type := World -> outcome A * World.

Definition ret {A} (a : A) : Task A := fun w => (Returned a, w).

Definition throw {A} (e : error) : Task A := fun w => (Threw e, w).

Definition bind {A B} (m : Task A) (k : A -> Task B) : Task B :=
  fun w =>
    match m w with
    | (Returned a, w') => k a w'
    | (Threw e, w') => (Threw e, w')
    end.

(** [try { m } catch (error) { h error }], and [p.catch(h)]. *)
Definition try_catch {A} (m : Task A) (h : error -> Task A) : Task A :=
  fun w =>
    match m w with
    | (Returned a, w') => (Returned a, w')
    | (Threw e, w') => h e w'
    end.

(** A promise nobody awaits: its work is done, its value is dropped, and
    a rejection reaches no handler of the caller. *)
Definition detached {A} (m : Task A) : Task unit :=
  fun w =>
    match m w with
    | (Returned _, w') => (Returned tt, w')
    | (Threw e, w') => (Returned tt, with_unhandled e w')
    end.

Declare Scope task_scope.
Delimit Scope task_scope with task.
Notation "x <- m ;; k" := (bind m (fun x => k))
  (at level 61, m at next level, right associativity) : task_scope.
Notation "m ;; k" := (bind m (fun _ => k))
  (at level 61, right associativity) : task_scope.
Local Open Scope task_scope.

(** [for (const x of l) { body x }] *)
Fixpoint for_each {A} (l : list A) (body : A -> Task unit) : Task unit :=
  match l with
  | [] => ret tt
  | x :: l' => body x ;; for_each l' body
  end.

Definition result {A} (m : Task A) (w : World) : outcome A := fst (m w).
Definition after {A} (m : Task A) (w : World) : World := snd (m w).

(** ** Constants of the script *)

Definition CACHE_VERSION : string := "cartrace-v1.0.0".
Definition CACHE_NAME : string := "cartrace-pro-" ++ CACHE_VERSION.

Definition STATIC_ASSETS : list string :=
  [ "/";
    "/index.html";
    "/cartrace_homepage_enhanced.html";
    "/emergency_report.html";
    "/dashboard.html";
    "/auth.html";
    "/analytics_dashboard.html";
    "/about.html";
    "/firebase_config.js";
    "/database_helper.js";
    "/image_compression.js";
    "/api_integration.js" ].

Definition API_CACHE_NAME : string := CACHE_NAME ++ "-api".

Definition API_URLS : list string :=
  [ "/api/alerts/active"; "/api/statistics"; "/api/community" ].

(** The cache the sync handlers read the pending actions from. *)
Definition OFFLINE_ACTIONS : string := "offline-actions".

#[global] Arguments CACHE_NAME : simpl never.
#[global] Arguments API_CACHE_NAME : simpl never.
#[global] Arguments OFFLINE_ACTIONS : simpl never.

(** Helper function to check if URL is a static asset *)
Definition isStaticAsset (pathname : string) : bool :=
  Str.endsWith pathname ".html" ||
  Str.endsWith pathname ".js" ||
  Str.endsWith pathname ".css" ||
  Str.endsWith pathname ".png" ||
  Str.endsWith pathname ".jpg" ||
  Str.endsWith pathname ".svg" ||
  Str.endsWith pathname ".ico".

(** The test of the activate listener's filter. *)
Definition is_old_cache (name : string) : bool :=
  Str.startsWith name "cartrace-" &&
  negb (String.eqb name CACHE_NAME) &&
  negb (String.eqb name API_CACHE_NAME).

(** [[o1; ...; on]] are all present, or nothing. *)
Fixpoint collect {A} (l : list (option A)) : option (list A) :=
  match l with
  | [] => Some []
  | None :: _ => None
  | Some a :: l' =>
      match collect l' with
      | Some r => Some (a :: r)
      | None => None
      end
  end.

(** A status [cache.addAll] accepts. *)
Definition addable_status (n : nat) : bool :=
  Nat.leb 200 n && Nat.leb n 299 && negb (Nat.eqb n 206).

(** The request a cache key stands for. *)
Definition key_Request (url : string) : Request :=
  {| req_url := url; req_method := "GET"; req_headers := [];
     req_body := None |}.

Section Worker.

Context {P : Platform}.

(** *** Browser interfaces *)

Definition console_log (m : string) : Task unit :=
  fun w => (Returned tt, with_console m w).

Definition console_error (m : string) : Task unit :=
  fun w => (Returned tt, with_console m w).

(** [fetch(request)]: the request is issued, then the promise settles. *)
Definition fetch (r : Request) : Task Response :=
  fun w =>
    match network r with
    | Some resp => (Returned resp, with_fetch r w)
    | None => (Threw FetchFailed, with_fetch r w)
    end.

(** [new Request(url)] *)
Definition new_Request (url : string) : Request :=
  key_Request (URL_resolve url).

(** [new Request(url, {method, headers, body})] *)
Definition new_Request_init (url method : string) (h : Headers)
  (b : string) : Request :=
  {| req_url := URL_resolve url; req_method := method;
     req_headers := fold_left (fun acc e => headers_set (fst e) (snd e) acc)
                      h [];
     req_body := Some b |}.

(** [caches.open(name)] creates the cache when there is none; the handle
    it returns is modelled by the name. *)
Definition caches_open (name : string) : Task string :=
  fun w => (Returned name, with_caches (cs_open name) w).

Definition caches_keys : Task (list string) :=
  fun w => (Returned (map fst (caches w)), w).

Definition caches_delete (name : string) : Task bool :=
  fun w => (Returned (cs_has name (caches w)), with_caches (cs_delete name) w).

(** Only a GET request matches an entry. *)
Definition caches_match (r : Request) : Task (option Response) :=
  fun w =>
    (Returned (if is_GET r then cs_match (req_url r) (caches w) else None),
     w).

Definition cache_match (cache : string) (r : Request)
  : Task (option Response) :=
  fun w =>
    (Returned (if is_GET r
               then store_match (req_url r) (cs_get cache (caches w))
               else None),
     w).

(** [cache.put] rejects a request that is not a GET. *)
Definition cache_put (cache : string) (r : Request) (resp : Response)
  : Task unit :=
  fun w =>
    if is_GET r
    then (Returned tt,
          with_caches (cs_update cache (store_put (req_url r) resp)) w)
    else (Threw TypeError, w).

Definition cache_keys (cache : string) : Task (list Request) :=
  fun w =>
    (Returned (map (fun e => key_Request (fst e)) (cs_get cache (caches w))),
     w).

Definition cache_delete (cache : string) (r : Request) : Task bool :=
  fun w =>
    if is_GET r
    then (Returned
            (match store_match (req_url r) (cs_get cache (caches w)) with
             | Some _ => true
             | None => false
             end),
          with_caches (cs_update cache (store_delete (req_url r))) w)
    else (Returned false, w).

(** What [cache.addAll] keeps of one fetch. *)
Definition addAll_entry (r : Request) : option (string * Response) :=
  match network r with
  | Some resp =>
      if addable_status (status resp) then Some (req_url r, resp) else None
  | None => None
  end.

(** [cache.addAll(urls)]: every URL is requested; the responses are stored
    together when all of them arrived with an accepted status, and none
    is stored otherwise. *)
Definition cache_addAll (cache : string) (urls : list string) : Task unit :=
  fun w =>
    let rs := map new_Request urls in
    let w1 := fold_left (fun w' r => with_fetch r w') rs w in
    match collect (map addAll_entry rs) with
    | Some entries =>
        (Returned tt,
         with_caches
           (cs_update cache
              (fun c =>
                 fold_left (fun c' e => store_put (fst e) (snd e) c')
                   entries c))
           w1)
    | None => (Threw TypeError, w1)
    end.

(** [response.json()], on what a lookup returned. *)
Definition response_json (r : option Response) : Task json :=
  match r with
  | None => throw TypeError
  | Some resp =>
      match JSON_parse (body resp) with
      | Some j => ret j
      | None => throw SyntaxError
      end
  end.

(** [v.k]: reading a property of [null] throws, and only an object has
    the properties the script reads. *)
Definition get_prop (v : json) (k : string) : Task (option json) :=
  match v with
  | JNull => throw TypeError
  | JObj fields => ret (assoc k fields)
  | _ => ret None
  end.

Definition skipWaiting : Task unit :=
  fun w => (Returned tt, with_skipped w).

Definition clients_claim : Task unit :=
  fun w => (Returned tt, with_claimed w).

Definition showNotification (n : Notification) : Task unit :=
  fun w => (Returned tt, with_shown n w).

Definition notification_close (n : Notification) : Task unit :=
  fun w => (Returned tt, with_ui (Closed n) w).

Definition clients_matchAll : Task (list Client) :=
  fun w => (Returned (windows w), w).

Definition client_focus (c : Client) : Task unit :=
  fun w => (Returned tt, with_ui (Focused c) w).

Definition clients_openWindow (url : json) : Task unit :=
  fun w => (Returned tt, with_ui (Opened url) w).

(** *** Install event - cache static assets *)

(** The task is the promise given to [event.waitUntil]: the install
    succeeds when it returns and fails when it throws. *)
Definition on_install : Task unit :=
  console_log "[Service Worker] Installing..." ;;
  try_catch
    (cache <- caches_open CACHE_NAME ;;
     console_log "[Service Worker] Caching static assets" ;;
     cache_addAll cache STATIC_ASSETS ;;
     console_log "[Service Worker] Installation complete" ;;
     skipWaiting)
    (fun _ => console_error "[Service Worker] Installation failed:").

(** *** Activate event - clean up old caches *)

(** The callback mapped over the names the filter keeps. *)
Definition delete_old (name : string) : Task unit :=
  console_log "[Service Worker] Deleting old cache:" ;;
  _ <- caches_delete name ;;
  ret tt.

Definition on_activate : Task unit :=
  console_log "[Service Worker] Activating..." ;;
  cacheNames <- caches_keys ;;
  for_each (filter is_old_cache cacheNames) delete_old ;;
  console_log "[Service Worker] Activation complete" ;;
  clients_claim.

(** *** Cache-first strategy (for static assets) *)

Definition cacheFirst (request : Request) : Task Response :=
  try_catch
    (cache <- caches_open CACHE_NAME ;;
     cachedResponse <- cache_match cache request ;;
     match cachedResponse with
     | Some cached =>
         console_log "[Service Worker] Serving from cache:" ;;
         (* Update cache in background *)
         detached
           (response <- fetch request ;;
            if Nat.eqb (status response) 200
            then detached (cache_put cache request response)
            else ret tt) ;;
         ret cached
     | None =>
         (* Not in cache, fetch from network *)
         networkResponse <- fetch request ;;
         (if Nat.eqb (status networkResponse) 200
          then detached (cache_put cache request networkResponse)
          else ret tt) ;;
         ret networkResponse
     end)
    (fun _ =>
       console_error "[Service Worker] Cache-first fetch failed:" ;;
       ret (text_Response "Offline - Resource not cached" 503
              "Service Unavailable")).

(** *** Network-first strategy (for dynamic content) *)

(** [None] is [undefined].  In the branch for HTML requests the left
    operand of [||] is the promise [offlineCache.match] returns, which is
    an object and so truthy: the function settles to whatever the lookup
    finds, and the right operand is never taken. *)
Definition networkFirst (request : Request) : Task (option Response) :=
  try_catch
    (networkResponse <- fetch request ;;
     (* Cache successful responses *)
     (if Nat.eqb (status networkResponse) 200
      then cache <- caches_open CACHE_NAME ;;
           detached (cache_put cache request networkResponse)
      else ret tt) ;;
     ret (Some networkResponse))
    (fun _ =>
       console_log "[Service Worker] Network failed, trying cache:" ;;
       cachedResponse <- caches_match request ;;
       match cachedResponse with
       | Some cached => ret (Some cached)
       | None =>
           (* Return offline page for HTML requests *)
           match headers_get "Accept" (req_headers request) with
           | None => throw TypeError
           | Some accept =>
               if Str.includes accept "text/html"
               then offlineCache <- caches_open CACHE_NAME ;;
                    cache_match offlineCache (new_Request "/offline.html")
               else ret (Some (text_Response "Offline" 503
                                 "Service Unavailable"))
           end
       end).

(** *** API-specific network-first strategy *)

Definition offline_error : json :=
  JObj [ ("error", JStr "Offline");
         ("message", JStr "Unable to fetch data while offline");
         ("cached", JBool false) ].

Definition apiNetworkFirst (request : Request) : Task Response :=
  try_catch
    (networkResponse <- fetch request ;;
     (if Nat.eqb (status networkResponse) 200
      then cache <- caches_open API_CACHE_NAME ;;
           detached (cache_put cache request networkResponse)
      else ret tt) ;;
     ret networkResponse)
    (fun _ =>
       console_log "[Service Worker] API network failed, trying cache:" ;;
       apiCache <- caches_open API_CACHE_NAME ;;
       cachedResponse <- cache_match apiCache request ;;
       match cachedResponse with
       | Some cached =>
           (* Add offline indicator header *)
           ret {| status := status cached;
                  statusText := statusText cached;
                  headers := headers_set "X-Offline-Response" "true"
                               (headers cached);
                  body := body cached |}
       | None =>
           ret {| status := 503;
                  statusText := "";
                  headers := headers_set "Content-Type" "application/json" [];
                  body := JSON_stringify offline_error |}
       end).

(** *** Fetch event - serve from cache when offline *)

(** The task is the promise given to [event.respondWith]. *)
Definition on_fetch (request : Request) : Task (option Response) :=
  let pathname := URL_pathname (req_url request) in
  if negb (String.eqb (req_method request) "GET") then
    networkFirst request
  else if Str.startsWith pathname "/api/" then
    r <- apiNetworkFirst request ;; ret (Some r)
  else if isStaticAsset pathname then
    r <- cacheFirst request ;; ret (Some r)
  else
    networkFirst request.

(** *** Handle messages from clients *)

(** [event.data]: the fields the listener reads.  A missing [cacheName]
    is [None]. *)
Record Message := {
  msg_type : string;
  msg_urls : list string;
  msg_cacheName : option string
}.

(** [event.data.cacheName || CACHE_NAME] *)
Definition cache_to_clear (m : Message) : string :=
  match msg_cacheName m with
  | Some n => if String.eqb n "" then CACHE_NAME else n
  | None => CACHE_NAME
  end.

Definition on_message (m : Message) : Task unit :=
  (if String.eqb (msg_type m) "SKIP_WAITING" then skipWaiting else ret tt) ;;
  (if String.eqb (msg_type m) "CACHE_URLS"
   then (* Cache additional URLs on demand *)
        detached (cache <- caches_open CACHE_NAME ;;
                  detached (cache_addAll cache (msg_urls m)))
   else ret tt) ;;
  (if String.eqb (msg_type m) "CLEAR_CACHE"
   then (* Clear specific cache *)
        detached (caches_delete (cache_to_clear m))
   else ret tt).

(** *** Background sync for offline actions *)

Definition json_headers : Headers := [("Content-Type", "application/json")].

(** Sync stolen vehicle alerts when back online *)
Definition syncAlerts : Task unit :=
  try_catch
    (cache <- caches_open OFFLINE_ACTIONS ;;
     requests <- cache_keys cache ;;
     for_each requests
       (fun request =>
          if Str.includes (req_url request) "/alerts"
          then try_catch
                 (response <- cache_match cache request ;;
                  data <- response_json response ;;
                  (* Re-submit the alert *)
                  _ <- fetch (new_Request_init "/api/alerts" "POST"
                                json_headers (JSON_stringify data)) ;;
                  (* Remove from offline cache *)
                  _ <- cache_delete cache request ;;
                  ret tt)
                 (fun _ =>
                    console_error "[Service Worker] Failed to sync alert:")
          else ret tt))
    (fun _ => console_error "[Service Worker] Sync alerts failed:").

(** Sync vehicle sightings when back online *)
Definition syncSightings : Task unit :=
  try_catch
    (cache <- caches_open OFFLINE_ACTIONS ;;
     requests <- cache_keys cache ;;
     for_each requests
       (fun request =>
          if Str.includes (req_url request) "/sightings"
          then try_catch
                 (response <- cache_match cache request ;;
                  data <- response_json response ;;
                  (* Re-submit the sighting *)
                  _ <- fetch (new_Request_init (req_url request) "POST"
                                json_headers (JSON_stringify data)) ;;
                  (* Remove from offline cache *)
                  _ <- cache_delete cache request ;;
                  ret tt)
                 (fun _ =>
                    console_error "[Service Worker] Failed to sync sighting:")
          else ret tt))
    (fun _ => console_error "[Service Worker] Sync sightings failed:").

Definition on_sync (tag : string) : Task unit :=
  (if String.eqb tag "sync-alerts" then syncAlerts else ret tt) ;;
  (if String.eqb tag "sync-sightings" then syncSightings else ret tt).

(** The two passes over the pending actions, side by side. *)
Inductive Pass : Type :=
| Alerts
| Sightings.

Definition run_pass (p : Pass) : Task unit :=
  match p with
  | Alerts => syncAlerts
  | Sightings => syncSightings
  end.

(** The text a pass looks for in the URL of a pending action. *)
Definition pass_marker (p : Pass) : string :=
  match p with
  | Alerts => "/alerts"
  | Sightings => "/sightings"
  end.

(** The URL a pass gives to [fetch] for the action kept under [url]. *)
Definition pass_target (p : Pass) (url : string) : string :=
  match p with
  | Alerts => "/api/alerts"
  | Sightings => url
  end.

Definition pass_failure (p : Pass) : string :=
  match p with
  | Alerts => "[Service Worker] Failed to sync alert:"
  | Sightings => "[Service Worker] Failed to sync sighting:"
  end.

(** The body of the loop of a pass. *)
Definition sync_item (p : Pass) (cache : string) (request : Request)
  : Task unit :=
  if Str.includes (req_url request) (pass_marker p)
  then try_catch
         (response <- cache_match cache request ;;
          data <- response_json response ;;
          _ <- fetch (new_Request_init (pass_target p (req_url request))
                        "POST" json_headers (JSON_stringify data)) ;;
          _ <- cache_delete cache request ;;
          ret tt)
         (fun _ => console_error (pass_failure p))
  else ret tt.

(** A pending action: the URL it is kept under and the stored response,
    whose body is the payload. *)
Definition Action : Type := string * Response.

(** Whether a pass takes the action. *)
Definition selected (p : Pass) (item : Action) : bool :=
  Str.includes (fst item) (pass_marker p).

(** The request a pass sends for an action it takes; there is none when
    the payload is not JSON. *)
Definition resubmission (p : Pass) (item : Action) : option Request :=
  match JSON_parse (body (snd item)) with
  | Some data =>
      Some (new_Request_init (pass_target p (fst item)) "POST"
              json_headers (JSON_stringify data))
  | None => None
  end.

(** The fetches a pass issues for an action. *)
Definition attempts (p : Pass) (item : Action) : list Request :=
  if selected p item
  then match resubmission p item with
       | Some r => [r]
       | None => []
       end
  else [].

(** The action was sent and the fetch did not fail. *)
Definition replayed (p : Pass) (item : Action) : bool :=
  selected p item &&
  match resubmission p item with
  | Some r => match network r with Some _ => true | None => false end
  | None => false
  end.

(** *** Push notification handler *)

(** [event.data] is [None] when the push carries no payload, and the text
    of the payload otherwise. *)
Definition on_push (data_text : option string) : Task unit :=
  data <- match data_text with
          | Some text =>
              match JSON_parse text with
              | Some j => ret j
              | None => throw SyntaxError
              end
          | None => ret (JObj [])
          end ;;
  title <- get_prop data "title" ;;
  body_ <- get_prop data "body" ;;
  tag <- get_prop data "tag" ;;
  data_ <- get_prop data "data" ;;
  showNotification
    {| n_title := js_or title (JStr "CarTrace Pro");
       n_body := js_or body_ (JStr "New stolen vehicle alert");
       n_icon := "/icon-192.png";
       n_badge := "/badge-72.png";
       n_vibrate := [200; 100; 200]%nat;
       n_tag := js_or tag (JStr "general");
       n_data := js_or data_ (JObj []);
       n_actions := [("view", "View Alert"); ("close", "Dismiss")] |}.

(** The notification shown for a payload that sets none of the fields. *)
Definition default_notification : Notification :=
  {| n_title := JStr "CarTrace Pro";
     n_body := JStr "New stolen vehicle alert";
     n_icon := "/icon-192.png";
     n_badge := "/badge-72.png";
     n_vibrate := [200; 100; 200]%nat;
     n_tag := JStr "general";
     n_data := JObj [];
     n_actions := [("view", "View Alert"); ("close", "Dismiss")] |}.

(** *** Notification click handler *)

(** The first open window showing [urlToOpen], as the loop finds it; a
    window client always has a [focus] method. *)
Definition window_showing (urlToOpen : json) (clientList : list Client)
  : option Client :=
  find (fun c => strict_eq_string (client_url c) urlToOpen) clientList.

(** [action] is [event.action]: the empty string when the notification
    itself was clicked rather than one of its buttons. *)
Definition on_notificationclick (n : Notification) (action : string)
  : Task unit :=
  notification_close n ;;
  if String.eqb action "view" then
    url <- get_prop (n_data n) "url" ;;
    let urlToOpen := js_or url (JStr "/dashboard.html") in
    clientList <- clients_matchAll ;;
    match window_showing urlToOpen clientList with
    | Some client => client_focus client
    | None =>
        (* Open new window if none exists *)
        if has_openWindow then clients_openWindow urlToOpen else ret tt
    end
  else ret tt.

(** *** The three strategies, as the fetch listener uses them *)

Inductive Strategy : Type :=
| CacheFirst
| NetworkFirst
| ApiNetworkFirst.

Definition run_strategy (s : Strategy) (request : Request)
  : Task (option Response) :=
  match s with
  | CacheFirst => r <- cacheFirst request ;; ret (Some r)
  | NetworkFirst => networkFirst request
  | ApiNetworkFirst => r <- apiNetworkFirst request ;; ret (Some r)
  end.

(** The cache a strategy writes to. *)
Definition strategy_cache (s : Strategy) : string :=
  match s with
  | CacheFirst => CACHE_NAME
  | NetworkFirst => CACHE_NAME
  | ApiNetworkFirst => API_CACHE_NAME
  end.

End Worker.

(** [r] is stored for [url] in the cache [name]. *)
Definition stored (name url : string) (r : Response) (cs : CacheStorage)
  : Prop :=
  In (url, r) (cs_get name cs).

(** What a run of a strategy can do to the storage: nothing, create its
    cache, or also put the fetched response with status 200 there. *)
Definition storage_step (P : Platform) (s : Strategy) (request : Request)
  (cs cs' : CacheStorage) : Prop :=
  cs' = cs \/
  cs' = cs_open (strategy_cache s) cs \/
  exists response,
    network request = Some response /\
    status response = 200 /\
    cs' = cs_update (strategy_cache s)
            (store_put (req_url request) response)
            (cs_open (strategy_cache s) cs).

(** ** A sample deployment

    A concrete browser and concrete worlds to run the handlers on. *)

Module Sample.

Definition origin : string := "https://cartrace.example".

Definition resolve (u : string) : string :=
  if Str.startsWith u "/" then (origin ++ u)%string else u.

(** The sample URLs carry no query and no fragment. *)
Definition pathname (u : string) : string :=
  if Str.startsWith u origin
  then String.substring (String.length origin)
         (String.length u - String.length origin) u
  else u.

Definition quote : string := String (ascii_of_nat 34) EmptyString.

(** [JSON.stringify] on values whose strings need no escaping. *)
Fixpoint stringify (j : json) : string :=
  (match j with
  | JNull => "null"
  | JBool true => "true"
  | JBool false => "false"
  | JNum n => NilZero.string_of_int (Z.to_int n)
  | JStr s => quote ++ s ++ quote
  | JArr items =>
      "[" ++
      (fix go (l : list json) : string :=
         match l with
         | [] => ""
         | x :: l' =>
             stringify x ++
             match l' with [] => "" | _ => "," ++ go l' end
         end) items ++ "]"
  | JObj fields =>
      "{" ++
      (fix go (l : list (string * json)) : string :=
         match l with
         | [] => ""
         | (k, x) :: l' =>
             quote ++ k ++ quote ++ ":" ++ stringify x ++
             match l' with [] => "" | _ => "," ++ go l' end
         end) fields ++ "}"
  end)%string.

(** A browser whose network answers from [net] and whose JSON parser
    knows the documents [docs]. *)
Definition browser (net : Request -> option Response)
  (docs : list (string * json)) : Platform :=
  {| network := net;
     JSON_parse := fun text => assoc text docs;
     JSON_stringify := stringify;
     URL_pathname := pathname;
     URL_resolve := resolve;
     has_openWindow := true |}.

(** No network at all. *)
Definition offline : Platform := browser (fun _ => None) [].

Definition ok_Response (text : string) : Response :=
  {| status := 200; statusText := "OK"; headers := []; body := text |}.

(** A network on which every request is answered with a 200. *)
Definition online (docs : list (string * json)) : Platform :=
  browser (fun _ => Some (ok_Response "ok")) docs.

(** A network on which every request reaches a server that answers
    with a 500. *)
Definition broken_server (docs : list (string * json)) : Platform :=
  browser (fun _ => Some {| status := 500;
                            statusText := "Internal Server Error";
                            headers := []; body := "" |}) docs.

(** A worker that has not run yet. *)
Definition fresh : World :=
  {| caches := []; fetch_log := []; console := []; unhandled := [];
     skipped_waiting := false; claimed := false; windows := [];
     shown := []; ui := [] |}.

Definition with_storage (cs : CacheStorage) : World :=
  with_caches (fun _ => cs) fresh.

Definition get (path : string) (accept : option string) : Request :=
  {| req_url := (origin ++ path)%string; req_method := "GET";
     req_headers := match accept with
                    | Some a => [("accept", a)]
                    | None => []
                    end;
     req_body := None |}.

Definition post (path : string) (accept text : string) : Request :=
  {| req_url := (origin ++ path)%string; req_method := "POST";
     req_headers := [("accept", accept);
                     ("content-type", "application/json")];
     req_body := Some text |}.

(** The empty JSON object, as text and as a value. *)
Definition docs : list (string * json) := [("{}", JObj [])].

Definition alert_post : Request :=
  post "/api/alerts" "application/json" "{}".


(** A queue holding an alert and a sighting. *)
Definition mixed_queue : World :=
  with_storage
    [(OFFLINE_ACTIONS,
      [("https://cartrace.example/api/alerts", ok_Response "{}");
       ("https://cartrace.example/api/sightings", ok_Response "{}")])].

(** A queue holding a sighting reported under its alert. *)
Definition nested_queue : World :=
  with_storage
    [(OFFLINE_ACTIONS,
      [("https://cartrace.example/api/alerts/42/sightings",
        ok_Response "{}")])].

End Sample.

(** ** Vocabulary for the further properties *)

(** The extensions [isStaticAsset] looks for. *)
Definition static_extensions : list string :=
  [".html"; ".js"; ".css"; ".png"; ".jpg"; ".svg"; ".ico"].





(** A computation after which the cache of pending actions holds
    nothing it did not hold before. *)
Definition adds_no_action {A} (m : Task A) : Prop :=
  forall w item,
    In item (cs_get OFFLINE_ACTIONS (caches (after m w))) ->
    In item (cs_get OFFLINE_ACTIONS (caches w)).

(** The events the script listens to. *)
Inductive Event : Type :=
| Install
| Activate
| Fetch (request : Request)
| MessageEvent (m : Message)
| Sync (tag : string)
| Push (data : option string)
| NotificationClick (n : Notification) (action : string).

(** The listener registered for an event.  The browser reads the outcome
    (to answer the page, to fail the install); the worker goes on in the
    world the listener left. *)
Definition listener {P : Platform} (e : Event) : Task unit :=
  match e with
  | Install => on_install
  | Activate => on_activate
  | Fetch request => _ <- on_fetch request ;; ret tt
  | MessageEvent m => on_message m
  | Sync tag => on_sync tag
  | Push data => on_push data
  | NotificationClick n action => on_notificationclick n action
  end.

(** The world after a sequence of events; a listener that throws does
    not stop the worker. *)
Definition run_events {P : Platform} (events : list Event) (w : World)
  : World :=
  fold_left (fun w' e => after (listener e) w') events w.

(** ** The API client ([CarTraceAPI], api_integration.js)

    The client whose requests the worker intercepts.  Its [request]
    method retries: what matters to the loop is how each fetch ends, so
    the network is given as the outcome of the first, second, ... fetch.
    Numbers are integers. *)

Module ApiClient.

(** The argument of the constructor; a missing field is [None]. *)
Record Config := {
  config_apiKey : option string;
  config_baseURL : option string;
  config_timeout : option Z;
  config_retryAttempts : option Z
}.

Record CarTraceAPI := {
  apiKey : option string;
  baseURL : string;
  timeout : Z;
  retryAttempts : Z
}.

(** [v || d] on strings: the empty string is falsy. *)
Definition string_or (v : option string) (d : string) : string :=
  match v with
  | Some s => if String.eqb s "" then d else s
  | None => d
  end.

(** [v || d] on numbers: zero is falsy. *)
Definition number_or (v : option Z) (d : Z) : Z :=
  match v with
  | Some n => if Z.eqb n 0 then d else n
  | None => d
  end.

Definition constructor (config : Config) : CarTraceAPI :=
  {| apiKey := match config_apiKey config with
               | Some k => if String.eqb k "" then None else Some k
               | None => None
               end;
     baseURL := string_or (config_baseURL config)
                  "https://api.cartracepro.com/v1";
     timeout := number_or (config_timeout config) 30000;
     retryAttempts := number_or (config_retryAttempts config) 3 |}.

(** What the [catch] of the loop can catch: the fetch was rejected (no
    network, or aborted at the timeout), the answer was not [ok], or its
    body was not JSON. *)
Inductive failure : Type :=
| FetchRejected
| ApiError (status : nat) (statusText : string)
| BadJson.

(** What the method does that can be seen from outside. *)
Inductive Step : Type :=
| Fetched (url : string)
| Timer (ms : Z).

(** How the call ends; [OutOfFuel] is for the model only. *)
Inductive Outcome : Type :=
| Resolved (value : option json)
| Rejected (error : failure)
| OutOfFuel.

Section Request.

Context {P : Platform}.

(** How the fetches end, in order: [None] is a rejection. *)
Variable exchange : nat -> option Response.

(** The [try] block of one turn, at the [k]-th fetch. *)
Definition try_once (k : nat) : failure + json :=
  match exchange k with
  | None => inl FetchRejected
  | Some response =>
      if negb (ok response)
      then inl (ApiError (status response) (statusText response))
      else match JSON_parse (body response) with
           | Some value => inr value
           | None => inl BadJson
           end
  end.

(** The loop, from the turn with [attempt] failures behind it. *)
Fixpoint request_from (this : CarTraceAPI) (url : string) (fuel : nat)
  (attempt : nat) : list Step * Outcome :=
  match fuel with
  | O => ([], OutOfFuel)
  | S fuel' =>
      if Z.ltb (Z.of_nat attempt) (retryAttempts this)
      then match try_once attempt with
           | inr value => ([Fetched url], Resolved (Some value))
           | inl error =>
               let attempt' := S attempt in
               if Z.geb (Z.of_nat attempt') (retryAttempts this)
               then ([Fetched url], Rejected error)
               else
                 (* Exponential backoff *)
                 let (steps, outcome) :=
                   request_from this url fuel' attempt' in
                 (Fetched url :: Timer (2 ^ Z.of_nat attempt' * 1000)
                    :: steps,
                  outcome)
           end
      else ([], Resolved None)
  end.

(** [request(endpoint, options)]; there is a turn for every attempt
    below [retryAttempts], and fuel for one more. *)
Definition request (this : CarTraceAPI) (endpoint : string)
  : list Step * Outcome :=
  request_from this (baseURL this ++ endpoint)%string
    (S (Z.to_nat (retryAttempts this))) 0.

End Request.

(** The endpoint of [reportSighting(alertId, sightingData)]. *)
Definition reportSighting_endpoint (alertId : string) : string :=
  ("/alerts/" ++ alertId ++ "/sightings")%string.

(** The fetches of a run, and the delays of its timers. *)
Definition fetches (steps : list Step) : nat :=
  List.length (filter (fun s => match s with Fetched _ => true
                                        | Timer _ => false end) steps).

Fixpoint timers (steps : list Step) : list Z :=
  match steps with
  | [] => []
  | Fetched _ :: steps' => timers steps'
  | Timer ms :: steps' => ms :: timers steps'
  end.

(** The delays of the backoff after the first, ..., [n]-th failure. *)
Definition backoff (first n : nat) : list Z :=
  map (fun k => 2 ^ Z.of_nat k * 1000)%Z (seq first n).

End ApiClient.

(** ** Facts about the Cache Storage *)

Lemma assoc_app_absent {A} (k : string) (l l' : list (string * A)) :
  assoc k l = None -> assoc k (l ++ l') = assoc k l'.
Proof.
  induction l as [|[k' v] l IH]; cbn; [reflexivity|].
  destruct (String.eqb k k'); [discriminate | exact IH].
Qed.

Lemma assoc_app_present {A} (k : string) (l l' : list (string * A)) v :
  assoc k l = Some v -> assoc k (l ++ l') = Some v.
Proof.
  induction l as [|[k' v'] l IH]; cbn; [discriminate|].
  destruct (String.eqb k k'); [trivial | exact IH].
Qed.

Lemma assoc_filter_keep {A} (keep : string -> bool) (k : string)
  (l : list (string * A)) :
  keep k = true -> assoc k (filter (fun e => keep (fst e)) l) = assoc k l.
Proof.
  intros Hk. induction l as [|[k' v] l IH]; cbn; [reflexivity|].
  destruct (String.eqb_spec k k') as [<-|Hne].
  - rewrite Hk. cbn. now rewrite String.eqb_refl.
  - destruct (keep k'); cbn; [|exact IH].
    destruct (String.eqb_spec k k'); [contradiction | exact IH].
Qed.

Lemma assoc_filter_drop {A} (keep : string -> bool) (k : string)
  (l : list (string * A)) :
  keep k = false -> assoc k (filter (fun e => keep (fst e)) l) = None.
Proof.
  intros Hk. induction l as [|[k' v] l IH]; cbn; [reflexivity|].
  destruct (keep k') eqn:Ek'; cbn; [|exact IH].
  destruct (String.eqb_spec k k') as [->|_]; [congruence | exact IH].
Qed.

Lemma cs_has_assoc (name : string) (cs : CacheStorage) :
  cs_has name cs = match assoc name cs with Some _ => true | None => false end.
Proof.
  unfold cs_has. induction cs as [|[n c] cs IH]; cbn; [reflexivity|].
  rewrite (String.eqb_sym n name).
  destruct (String.eqb name n); [reflexivity | exact IH].
Qed.

Lemma cs_get_open (name name' : string) (cs : CacheStorage) :
  cs_get name (cs_open name' cs) = cs_get name cs.
Proof.
  unfold cs_open, cs_get. rewrite cs_has_assoc.
  destruct (assoc name' cs) eqn:E'; [reflexivity|].
  destruct (assoc name cs) eqn:E.
  - now rewrite (assoc_app_present _ _ _ _ E).
  - rewrite (assoc_app_absent _ _ _ E). cbn.
    now destruct (String.eqb name name').
Qed.

Lemma cs_has_open (name : string) (cs : CacheStorage) :
  cs_has name (cs_open name cs) = true.
Proof.
  unfold cs_open. destruct (cs_has name cs) eqn:E; [exact E|].
  unfold cs_has. rewrite existsb_app. cbn. rewrite String.eqb_refl.
  now rewrite orb_true_r.
Qed.



Lemma cs_get_update_same (name : string) f (cs : CacheStorage) :
  cs_has name cs = true ->
  cs_get name (cs_update name f cs) = f (cs_get name cs).
Proof.
  rewrite cs_has_assoc. unfold cs_get.
  induction cs as [|[n c] cs IH]; cbn; [discriminate|].
  destruct (String.eqb name n) eqn:E; cbn; rewrite E; [reflexivity|].
  exact IH.
Qed.

Lemma cs_get_update_other (name name' : string) f (cs : CacheStorage) :
  name <> name' ->
  cs_get name (cs_update name' f cs) = cs_get name cs.
Proof.
  intros Hne. unfold cs_get.
  induction cs as [|[n c] cs IH]; cbn; [reflexivity|].
  destruct (String.eqb_spec name' n) as [<-|Hn]; cbn.
  - destruct (String.eqb_spec name name'); [contradiction | reflexivity].
  - destruct (String.eqb name n); [reflexivity | exact IH].
Qed.

Lemma cs_has_update (name name' : string) f (cs : CacheStorage) :
  cs_has name (cs_update name' f cs) = cs_has name cs.
Proof.
  unfold cs_has. induction cs as [|[n c] cs IH]; cbn; [reflexivity|].
  destruct (String.eqb name' n); cbn; [reflexivity|].
  now rewrite IH.
Qed.

Lemma cs_has_delete (name : string) (cs : CacheStorage) :
  cs_has name (cs_delete name cs) = false.
Proof.
  rewrite cs_has_assoc. unfold cs_delete.
  rewrite (assoc_filter_drop (fun n => negb (String.eqb n name))).
  - reflexivity.
  - now rewrite String.eqb_refl.
Qed.

Lemma cs_get_delete_other (name name' : string) (cs : CacheStorage) :
  name <> name' -> cs_get name (cs_delete name' cs) = cs_get name cs.
Proof.
  intros Hne. unfold cs_get, cs_delete.
  rewrite (assoc_filter_keep (fun n => negb (String.eqb n name'))).
  - reflexivity.
  - destruct (String.eqb_spec name name'); [contradiction | reflexivity].
Qed.

(** ** Running a computation step by step *)

Lemma run_bind {A B} (m : Task A) (k : A -> Task B) (w w' : World) (a : A) :
  m w = (Returned a, w') -> bind m k w = k a w'.
Proof. intros E. unfold bind. now rewrite E. Qed.

Lemma run_bind_threw {A B} (m : Task A) (k : A -> Task B) (w w' : World) e :
  m w = (Threw e, w') -> bind m k w = (Threw e, w').
Proof. intros E. unfold bind. now rewrite E. Qed.

Lemma run_try_returned {A} (m : Task A) h (w w' : World) (a : A) :
  m w = (Returned a, w') -> try_catch m h w = (Returned a, w').
Proof. intros E. unfold try_catch. now rewrite E. Qed.

Lemma run_try_threw {A} (m : Task A) h (w w' : World) e :
  m w = (Threw e, w') -> try_catch m h w = h e w'.
Proof. intros E. unfold try_catch. now rewrite E. Qed.

(** ** The message listener *)

(** C10. A CLEAR_CACHE message that carries no cache name is answered by
    deleting the current static cache [CACHE_NAME]: the listener returns,
    the storage afterwards is the storage without that cache, and every
    other cache is as it was. *)
Theorem clear_cache_defaults_to_current (P : Platform)
  (urls : list string) (w : World) :
  let m := {| msg_type := "CLEAR_CACHE"; msg_urls := urls;
              msg_cacheName := None |} in
  cache_to_clear m = CACHE_NAME /\
  result (on_message m) w = Returned tt /\
  caches (after (on_message m) w) = cs_delete CACHE_NAME (caches w) /\
  cs_has CACHE_NAME (caches (after (on_message m) w)) = false /\
  (forall name, name <> CACHE_NAME ->
     cs_get name (caches (after (on_message m) w)) = cs_get name (caches w)).
Proof.
  cbn. repeat split.
  - apply cs_has_delete.
  - intros name Hne. now apply cs_get_delete_other.
Qed.

Lemma clear_cache_defaults_to_current_witness :
  cs_get OFFLINE_ACTIONS
    (caches
       (after (on_message (P := Sample.offline)
                 {| msg_type := "CLEAR_CACHE"; msg_urls := [];
                    msg_cacheName := None |})
          Sample.mixed_queue)) =
  cs_get OFFLINE_ACTIONS (caches Sample.mixed_queue).
Proof.
  pose proof (clear_cache_defaults_to_current Sample.offline []
                Sample.mixed_queue) as H.
  cbv zeta in H. destruct H as (_ & _ & _ & _ & Hother).
  apply Hother. discriminate.
Defined.

(** ** The activate listener *)

Lemma filter_filter {A} (f g : A -> bool) (l : list A) :
  filter f (filter g l) = filter (fun x => g x && f x) l.
Proof.
  induction l as [|x l IH]; cbn; [reflexivity|].
  destruct (g x); cbn; [destruct (f x)|]; now rewrite IH.
Qed.

Lemma fold_cs_delete (names : list string) (cs : CacheStorage) :
  fold_left (fun acc n => cs_delete n acc) names cs =
  filter (fun e => negb (existsb (String.eqb (fst e)) names)) cs.
Proof.
  revert cs. induction names as [|n names IH]; intros cs; cbn.
  - symmetry. apply forallb_filter_id.
    apply forallb_forall. reflexivity.
  - rewrite IH. unfold cs_delete. rewrite filter_filter.
    apply filter_ext. intros e. now rewrite negb_orb.
Qed.

Lemma existsb_filter_mem (p : string -> bool) (k : string)
  (l : list string) :
  In k l -> existsb (String.eqb k) (filter p l) = p k.
Proof.
  intros Hin. destruct (p k) eqn:Ek.
  - apply existsb_exists. exists k. split.
    + apply filter_In. now split.
    + apply String.eqb_refl.
  - destruct (existsb (String.eqb k) (filter p l)) eqn:Ex; [|reflexivity].
    apply existsb_exists in Ex. destruct Ex as [x [Hx Heq]].
    apply String.eqb_eq in Heq. subst x.
    apply filter_In in Hx. destruct Hx as [_ Hx]. congruence.
Qed.

Lemma delete_loop (names : list string) (w : World) :
  exists w',
    for_each names delete_old w = (Returned tt, w') /\
    caches w' = fold_left (fun acc n => cs_delete n acc) names (caches w).
Proof.
  revert w. induction names as [|n names IH]; intros w.
  - exists w. now split.
  - destruct (IH (with_caches (cs_delete n)
                    (with_console "[Service Worker] Deleting old cache:" w)))
      as (w' & Hrun & Hc).
    exists w'. split; [exact Hrun | exact Hc].
Qed.

Lemma on_activate_caches (w : World) :
  result on_activate w = Returned tt /\
  caches (after on_activate w) =
    filter (fun e => negb (is_old_cache (fst e))) (caches w).
Proof.
  pose (w0 := with_console "[Service Worker] Activating..." w).
  pose (names := filter is_old_cache (map fst (caches w))).
  destruct (delete_loop names w0) as (w1 & Hrun & Hc).
  assert (E : on_activate w =
              (Returned tt,
               with_claimed
                 (with_console "[Service Worker] Activation complete" w1))).
  { change (on_activate w) with
      (bind (for_each names delete_old)
         (fun _ => console_log "[Service Worker] Activation complete" ;;
                   clients_claim) w0).
    now rewrite (run_bind _ _ _ _ _ Hrun). }
  unfold result, after. rewrite E. cbn. split; [reflexivity|].
  rewrite Hc, fold_cs_delete.
  apply filter_ext_in. intros [n c] Hin. cbn.
  unfold names. rewrite existsb_filter_mem; [reflexivity|].
  apply in_map_iff. now exists (n, c).
Qed.

(** C6. On activate every cache whose name starts with the product
    prefix and is neither [CACHE_NAME] nor [API_CACHE_NAME] is deleted,
    and nothing else is: the two current caches keep their entries.  From
    the caches of an older version and the two current ones, only the
    current two remain. *)
Theorem activate_keeps_only_current (w : World) :
  let w' := after on_activate w in
  result on_activate w = Returned tt /\
  caches w' = filter (fun e => negb (is_old_cache (fst e))) (caches w) /\
  (forall name,
     Str.startsWith name "cartrace-" = true ->
     name <> CACHE_NAME -> name <> API_CACHE_NAME ->
     cs_has name (caches w') = false) /\
  cs_has CACHE_NAME (caches w') = cs_has CACHE_NAME (caches w) /\
  cs_get CACHE_NAME (caches w') = cs_get CACHE_NAME (caches w) /\
  cs_has API_CACHE_NAME (caches w') = cs_has API_CACHE_NAME (caches w) /\
  cs_get API_CACHE_NAME (caches w') = cs_get API_CACHE_NAME (caches w) /\
  (forall v1 v1api v2 v2api,
     caches w = [ ("cartrace-pro-cartrace-v0.9.0", v1);
                  ("cartrace-pro-cartrace-v0.9.0-api", v1api);
                  (CACHE_NAME, v2);
                  (API_CACHE_NAME, v2api) ] ->
     caches w' = [ (CACHE_NAME, v2); (API_CACHE_NAME, v2api) ]).
Proof.
  intros w'. destruct (on_activate_caches w) as [Hr Hc].
  fold w' in Hc. split; [exact Hr|]. split; [exact Hc|].
  assert (Hkeep : forall n, is_old_cache n = false ->
            assoc n (caches w') = assoc n (caches w)).
  { intros n Hn. rewrite Hc.
    apply (assoc_filter_keep (fun k => negb (is_old_cache k))).
    now rewrite Hn. }
  repeat split.
  - intros name Hp Hc1 Hc2. rewrite cs_has_assoc, Hc.
    rewrite (assoc_filter_drop (fun k => negb (is_old_cache k)));
      [reflexivity|].
    unfold is_old_cache. rewrite Hp.
    destruct (String.eqb_spec name CACHE_NAME); [contradiction|].
    destruct (String.eqb_spec name API_CACHE_NAME); [contradiction|].
    reflexivity.
  - rewrite !cs_has_assoc, Hkeep; reflexivity.
  - unfold cs_get. rewrite Hkeep; reflexivity.
  - rewrite !cs_has_assoc, Hkeep; reflexivity.
  - unfold cs_get. rewrite Hkeep; reflexivity.
  - intros v1 v1api v2 v2api Hw. rewrite Hc, Hw. reflexivity.
Qed.

Lemma activate_keeps_only_current_witness :
  caches (after (on_activate)
            (Sample.with_storage
               [ ("cartrace-pro-cartrace-v0.9.0", []);
                 ("cartrace-pro-cartrace-v0.9.0-api", []);
                 (CACHE_NAME, [("https://cartrace.example/",
                                Sample.ok_Response "home")]);
                 (API_CACHE_NAME, []) ])) =
  [ (CACHE_NAME, [("https://cartrace.example/", Sample.ok_Response "home")]);
    (API_CACHE_NAME, []) ] /\
  cs_has "cartrace-pro-cartrace-v0.9.0"
    (caches (after (on_activate)
               (Sample.with_storage
                  [ ("cartrace-pro-cartrace-v0.9.0", []);
                    ("cartrace-pro-cartrace-v0.9.0-api", []);
                    (CACHE_NAME, [("https://cartrace.example/",
                                   Sample.ok_Response "home")]);
                    (API_CACHE_NAME, []) ]))) = false.
Proof.
  pose proof (activate_keeps_only_current
    (Sample.with_storage
       [ ("cartrace-pro-cartrace-v0.9.0", []);
         ("cartrace-pro-cartrace-v0.9.0-api", []);
         (CACHE_NAME, [("https://cartrace.example/",
                        Sample.ok_Response "home")]);
         (API_CACHE_NAME, []) ])) as H.
  cbv zeta in H.
  destruct H as (_ & _ & Hdel & _ & _ & _ & _ & Hex).
  split.
  - eapply Hex. reflexivity.
  - apply Hdel; [reflexivity | discriminate | discriminate].
Defined.

(** ** Headers *)



(** ** The fetch listener: API reads *)

Lemma on_fetch_api (P : Platform) (request : Request) :
  req_method request = "GET" ->
  Str.startsWith (URL_pathname (req_url request)) "/api/" = true ->
  on_fetch request = (r <- apiNetworkFirst request ;; ret (Some r)).
Proof. intros Hm Hp. unfold on_fetch. now rewrite Hm, Hp. Qed.



(** ** The fetch listener: static assets *)


Lemma on_fetch_static (P : Platform) (request : Request) :
  req_method request = "GET" ->
  Str.startsWith (URL_pathname (req_url request)) "/api/" = false ->
  isStaticAsset (URL_pathname (req_url request)) = true ->
  on_fetch request = (r <- cacheFirst request ;; ret (Some r)).
Proof. intros Hm Hp Hs. unfold on_fetch. now rewrite Hm, Hp, Hs. Qed.



(** ** What the strategies store *)

Lemma in_store_put (url url' : string) (r r' : Response) (c : Cache) :
  In (url', r') (store_put url r c) <->
  (In (url', r') c /\ url' <> url) \/ (url' = url /\ r' = r).
Proof.
  unfold store_put, store_delete. rewrite in_app_iff, filter_In. cbn.
  split.
  - intros [[Hin Hne] | [[= <- <-] | []]].
    + left. split; [exact Hin|].
      destruct (String.eqb_spec url' url); [discriminate | assumption].
    + now right.
  - intros [[Hin Hne] | [-> ->]].
    + left. split; [exact Hin|].
      destruct (String.eqb_spec url' url); [contradiction | reflexivity].
    + right. now left.
Qed.

Lemma strategy_storage_step (P : Platform) (s : Strategy)
  (request : Request) (w : World) :
  storage_step P s request (caches w)
    (caches (after (run_strategy s request) w)).
Proof.
  unfold storage_step, after, run_strategy.
  destruct s;
    unfold cacheFirst, networkFirst, apiNetworkFirst, try_catch, bind,
      detached, fetch, cache_put, cache_match, caches_match, caches_open;
    cbn;
    repeat match goal with
      | |- context [match network ?r with _ => _ end] =>
          destruct (network r) eqn:?; cbn
      | |- context [Nat.eqb ?a 200] =>
          destruct (Nat.eqb_spec a 200); cbn
      | |- context [if is_GET ?r then _ else _] =>
          destruct (is_GET r) eqn:?; cbn
      | |- context [match store_match ?u ?c with _ => _ end] =>
          destruct (store_match u c) eqn:?; cbn
      | |- context [match cs_match ?u ?c with _ => _ end] =>
          destruct (cs_match u c) eqn:?; cbn
      | |- context [match headers_get ?u ?c with _ => _ end] =>
          destruct (headers_get u c) eqn:?; cbn
      | |- context [if Str.includes ?u ?c then _ else _] =>
          destruct (Str.includes u c) eqn:?; cbn
      end;
    try (left; reflexivity);
    try (right; left; reflexivity);
    try (right; right; eexists; repeat split; eassumption).
Qed.

Lemma stored_after_step (P : Platform) (s : Strategy) (request : Request)
  (cs cs' : CacheStorage) (name url : string) (r : Response) :
  storage_step P s request cs cs' ->
  stored name url r cs' ->
  stored name url r cs \/
  (name = strategy_cache s /\ url = req_url request /\
   network request = Some r /\ status r = 200).
Proof.
  unfold stored. intros [-> | [-> | (response & Hnet & Hst & ->)]] Hin.
  - now left.
  - left. now rewrite cs_get_open in Hin.
  - destruct (String.eqb_spec name (strategy_cache s)) as [->|Hne].
    + rewrite cs_get_update_same, cs_get_open in Hin
        by apply cs_has_open.
      apply in_store_put in Hin. destruct Hin as [[Hin _] | [-> ->]].
      * now left.
      * right. now repeat split.
    + left. now rewrite cs_get_update_other, cs_get_open in Hin.
Qed.

Lemma stored_before_step (P : Platform) (s : Strategy) (request : Request)
  (cs cs' : CacheStorage) (name url : string) (r : Response) :
  storage_step P s request cs cs' ->
  stored name url r cs ->
  stored name url r cs' \/
  (name = strategy_cache s /\ url = req_url request /\
   exists r', network request = Some r' /\ status r' = 200 /\
              stored name url r' cs').
Proof.
  unfold stored. intros [-> | [-> | (response & Hnet & Hst & ->)]] Hin.
  - now left.
  - left. now rewrite cs_get_open.
  - destruct (String.eqb_spec name (strategy_cache s)) as [->|Hne].
    + rewrite cs_get_update_same, cs_get_open by apply cs_has_open.
      destruct (String.eqb_spec url (req_url request)) as [->|Hu].
      * right. repeat split. exists response. repeat split; trivial.
        apply in_store_put. now right.
      * left. apply in_store_put. left. now split.
    + left. now rewrite cs_get_update_other, cs_get_open.
Qed.

(** C9. Whatever strategy handles a request, a response found in a cache
    afterwards was there before or is the response the network gave to
    this request, with status 200, a successful status; and an entry
    that is no longer there was replaced, under the same URL in the same
    cache, by such a response. *)
Theorem strategies_store_only_successful (P : Platform) (s : Strategy)
  (request : Request) (w : World) (name url : string) (r : Response) :
  let w' := after (run_strategy s request) w in
  (stored name url r (caches w') ->
   stored name url r (caches w) \/
   (name = strategy_cache s /\ url = req_url request /\
    network request = Some r /\ status r = 200 /\ ok r = true)) /\
  (stored name url r (caches w) ->
   stored name url r (caches w') \/
   (name = strategy_cache s /\ url = req_url request /\
    exists r', network request = Some r' /\ status r' = 200 /\
               ok r' = true /\ stored name url r' (caches w'))).
Proof.
  intros w'. pose proof (strategy_storage_step P s request w) as Hstep.
  fold w' in Hstep. split; intros Hin.
  - destruct (stored_after_step P s request _ _ _ _ _ Hstep Hin)
      as [H | (Hn & Hu & Hnet & Hst)]; [now left|].
    right. repeat split; trivial. unfold ok. now rewrite Hst.
  - destruct (stored_before_step P s request _ _ _ _ _ Hstep Hin)
      as [H | (Hn & Hu & r' & Hnet & Hst & Hin')]; [now left|].
    right. repeat split; trivial. exists r'. repeat split; trivial.
    unfold ok. now rewrite Hst.
Qed.

Lemma strategies_store_only_successful_witness :
  stored CACHE_NAME "https://cartrace.example/reports"
    (Sample.ok_Response "ok") (caches Sample.fresh) \/
  (CACHE_NAME = strategy_cache NetworkFirst /\
   "https://cartrace.example/reports" =
     req_url (Sample.get "/reports" (Some "text/html")) /\
   network (Platform := Sample.online [])
     (Sample.get "/reports" (Some "text/html")) =
     Some (Sample.ok_Response "ok") /\
   status (Sample.ok_Response "ok") = 200 /\
   ok (Sample.ok_Response "ok") = true).
Proof.
  apply (proj1 (strategies_store_only_successful (Sample.online [])
                  NetworkFirst (Sample.get "/reports" (Some "text/html"))
                  Sample.fresh CACHE_NAME
                  "https://cartrace.example/reports"
                  (Sample.ok_Response "ok"))).
  left. reflexivity.
Defined.

(** ** The fetch listener: network first *)

Lemma on_fetch_write (P : Platform) (request : Request) :
  req_method request <> "GET" ->
  on_fetch request = networkFirst request.
Proof.
  intros Hm. unfold on_fetch.
  destruct (String.eqb_spec (req_method request) "GET");
    [contradiction | reflexivity].
Qed.


(** What [networkFirst] does once the fetch has failed and no cache has
    the request. *)
Lemma networkFirst_offline (P : Platform) (request : Request) (w : World) :
  network request = None ->
  (if is_GET request then cs_match (req_url request) (caches w) else None)
    = None ->
  networkFirst request w =
  let w1 := with_console "[Service Worker] Network failed, trying cache:"
              (with_fetch request w) in
  match headers_get "Accept" (req_headers request) with
  | None => (Threw TypeError, w1)
  | Some accept =>
      if Str.includes accept "text/html"
      then (Returned
              (store_match (URL_resolve "/offline.html")
                 (cs_get CACHE_NAME (caches w))),
            with_caches (cs_open CACHE_NAME) w1)
      else (Returned (Some (text_Response "Offline" 503
                              "Service Unavailable")), w1)
  end.
Proof.
  intros Hnet Hmiss.
  unfold networkFirst, try_catch, bind, fetch. rewrite Hnet. cbn.
  rewrite Hmiss. cbn.
  destruct (headers_get "Accept" (req_headers request)) as [accept|];
    [|reflexivity].
  destruct (Str.includes accept "text/html"); [|reflexivity].
  unfold cache_match. cbn. now rewrite cs_get_open.
Qed.

(** C7, on the code.  Two reads outside [/api/] and the static
    extensions, with the network down and nothing cached: the one that
    accepts HTML is answered with [undefined], since [/offline.html] is
    not cached and the 503 fallback is never reached; the one without an
    Accept header makes the handler throw. *)
Theorem offline_navigation_gets_no_response :
  result (on_fetch (P := Sample.offline)
            (Sample.get "/reports" (Some "text/html")))
    Sample.fresh = Returned None /\
  result (on_fetch (P := Sample.offline) (Sample.get "/reports" None))
    Sample.fresh = Threw TypeError.
Proof. split; reflexivity. Qed.

(** C1, as stated, fails: a POST of an alert with the network down is
    answered with the generic 503 response, which is not [ok], and no
    cache holds anything afterwards, the queue included. *)
Lemma failed_write_gets_offline_error :
  result (on_fetch (P := Sample.offline) Sample.alert_post) Sample.fresh =
    Returned (Some (text_Response "Offline" 503 "Service Unavailable")) /\
  ok (text_Response "Offline" 503 "Service Unavailable") = false /\
  cs_get OFFLINE_ACTIONS
    (caches (after (on_fetch (P := Sample.offline) Sample.alert_post)
               Sample.fresh)) = [] /\
  caches (after (on_fetch (P := Sample.offline) Sample.alert_post)
            Sample.fresh) = [].
Proof. repeat split. Qed.

(** C1, amended.  A request that is not a GET and whose fetch fails is
    not queued: the cache of offline actions is as it was.  If its Accept
    header does not include [text/html] the answer is the generic
    "Offline" response with status 503 and no cache changes; if it does
    and the offline page is cached, the answer is that page. *)
Theorem failed_write_is_not_queued (P : Platform) (request : Request)
  (w : World) :
  req_method request <> "GET" ->
  network request = None ->
  let w' := after (on_fetch request) w in
  cs_get OFFLINE_ACTIONS (caches w') = cs_get OFFLINE_ACTIONS (caches w) /\
  fetch_log w' = fetch_log w ++ [request] /\
  (forall accept,
     headers_get "Accept" (req_headers request) = Some accept ->
     Str.includes accept "text/html" = false ->
     result (on_fetch request) w =
       Returned (Some (text_Response "Offline" 503 "Service Unavailable")) /\
     caches w' = caches w) /\
  (forall accept page,
     headers_get "Accept" (req_headers request) = Some accept ->
     Str.includes accept "text/html" = true ->
     store_match (URL_resolve "/offline.html")
       (cs_get CACHE_NAME (caches w)) = Some page ->
     result (on_fetch request) w = Returned (Some page)).
Proof.
  intros Hm Hnet w'. subst w'.
  assert (Hget : is_GET request = false).
  { unfold is_GET. destruct (String.eqb_spec (req_method request) "GET");
      [contradiction | reflexivity]. }
  rewrite (on_fetch_write P request Hm).
  unfold result, after.
  rewrite (networkFirst_offline P request w Hnet)
    by (rewrite Hget; reflexivity).
  cbv zeta.
  destruct (headers_get "Accept" (req_headers request)) as [accept|].
  - destruct (Str.includes accept "text/html") eqn:Ehtml; cbn.
    + split; [apply cs_get_open|]. split; [reflexivity|].
      split; [intros a [= <-]; congruence|].
      intros a page [= <-] _ Hpage. now rewrite Hpage.
    + split; [reflexivity|]. split; [reflexivity|].
      split; [intros a [= <-] _; now split|].
      intros a page [= <-]; congruence.
  - cbn. split; [reflexivity|]. split; [reflexivity|].
    split; intros; discriminate.
Qed.

Lemma failed_write_is_not_queued_witness :
  result (on_fetch (P := Sample.offline) Sample.alert_post) Sample.fresh =
  Returned (Some (text_Response "Offline" 503 "Service Unavailable")).
Proof.
  pose proof (failed_write_is_not_queued Sample.offline Sample.alert_post
    Sample.fresh ltac:(discriminate) eq_refl) as H.
  cbv zeta in H. destruct H as (_ & _ & H & _).
  exact (proj1 (H "application/json" eq_refl eq_refl)).
Defined.

(** ** The install listener *)

Lemma on_install_returns (P : Platform) (w : World) :
  result on_install w = Returned tt.
Proof.
  unfold on_install. generalize STATIC_ASSETS as urls. intros urls.
  unfold result, bind, try_catch, cache_addAll. cbn.
  now destruct (collect (map addAll_entry (map new_Request urls))).
Qed.

(** C2, on the code.  With the network down no manifest entry can be
    fetched, the failure is logged, nothing is cached and [skipWaiting]
    is not called; yet the promise given to [waitUntil] is fulfilled, so
    the install goes through. *)
Theorem failed_install_is_swallowed :
  let w' := after (on_install (P := Sample.offline)) Sample.fresh in
  result (on_install (P := Sample.offline)) Sample.fresh = Returned tt /\
  caches w' = [(CACHE_NAME, [])] /\
  skipped_waiting w' = false /\
  console w' = [ "[Service Worker] Installing...";
                 "[Service Worker] Caching static assets";
                 "[Service Worker] Installation failed:" ].
Proof. repeat split. Qed.

Lemma collect_none {A B} (f : A -> option B) (x : A) (l : list A) :
  In x l -> f x = None -> collect (map f l) = None.
Proof.
  intros Hin Hx. induction l as [|y l IH]; [contradiction|].
  cbn. destruct Hin as [->|Hin].
  - now rewrite Hx.
  - destruct (f y); [|reflexivity]. now rewrite (IH Hin).
Qed.

Lemma fold_with_fetch (rs : list Request) (w : World) :
  skipped_waiting (fold_left (fun w' r => with_fetch r w') rs w) =
    skipped_waiting w /\
  caches (fold_left (fun w' r => with_fetch r w') rs w) = caches w /\
  console (fold_left (fun w' r => with_fetch r w') rs w) = console w.
Proof.
  revert w. induction rs as [|r rs IH]; intros w; cbn; [now repeat split|].
  apply (IH (with_fetch r w)).
Qed.

(** The same for any browser: one manifest entry that cannot be fetched
    is enough. *)
Lemma failed_install_in_general (P : Platform) (w : World) (url : string) :
  In url STATIC_ASSETS ->
  network (new_Request url) = None ->
  result on_install w = Returned tt /\
  skipped_waiting (after on_install w) = skipped_waiting w /\
  caches (after on_install w) = cs_open CACHE_NAME (caches w).
Proof.
  intros Hin Hnet.
  assert (Hc : collect (map addAll_entry (map new_Request STATIC_ASSETS))
               = None).
  { apply (collect_none addAll_entry (new_Request url)).
    - now apply in_map.
    - unfold addAll_entry. now rewrite Hnet. }
  revert Hc. unfold on_install. generalize STATIC_ASSETS as urls.
  intros urls Hc.
  unfold result, after, bind, try_catch, cache_addAll. cbn.
  rewrite Hc. cbn.
  destruct (fold_with_fetch (map new_Request urls)
              (with_console "[Service Worker] Caching static assets"
                 (with_caches (cs_open CACHE_NAME)
                    (with_console "[Service Worker] Installing..." w))))
    as (Hs & Hcs & _).
  repeat split; assumption.
Qed.

(** ** Notifications *)





(** ** The sync passes *)

Lemma store_delete_absent (k : string) (c : Cache) :
  ~ In k (map fst c) -> store_delete k c = c.
Proof.
  intros Hk. unfold store_delete. apply forallb_filter_id.
  apply forallb_forall. intros [k' r] Hin. cbn.
  destruct (String.eqb_spec k' k) as [->|_]; [|reflexivity].
  exfalso. apply Hk. apply in_map_iff. now exists (k, r).
Qed.

Lemma assoc_absent {A} (k : string) (l : list (string * A)) :
  ~ In k (map fst l) -> assoc k l = None.
Proof.
  induction l as [|[k' v] l IH]; cbn; [reflexivity|].
  intros Hk. destruct (String.eqb_spec k k') as [->|_].
  - exfalso. apply Hk. now left.
  - apply IH. intros Hin. apply Hk. now right.
Qed.

Section Sync.

Context {P : Platform}.

Lemma run_pass_as_loop (p : Pass) :
  run_pass p =
  try_catch
    (cache <- caches_open OFFLINE_ACTIONS ;;
     requests <- cache_keys cache ;;
     for_each requests (sync_item p cache))
    (fun _ =>
       console_error
         match p with
         | Alerts => "[Service Worker] Sync alerts failed:"
         | Sightings => "[Service Worker] Sync sightings failed:"
         end).
Proof. destruct p; reflexivity. Qed.

Lemma on_sync_alerts : on_sync "sync-alerts" = (run_pass Alerts ;; ret tt).
Proof. reflexivity. Qed.

Lemma on_sync_sightings :
  on_sync "sync-sightings" = (ret tt ;; run_pass Sightings).
Proof. reflexivity. Qed.

(** One turn of the loop, on the key of an action that is in the cache. *)
Lemma sync_item_step (p : Pass) (k : string) (r : Response) (w : World) :
  cs_has OFFLINE_ACTIONS (caches w) = true ->
  store_match k (cs_get OFFLINE_ACTIONS (caches w)) = Some r ->
  exists w',
    sync_item p OFFLINE_ACTIONS (key_Request k) w = (Returned tt, w') /\
    fetch_log w' = fetch_log w ++ attempts p (k, r) /\
    cs_has OFFLINE_ACTIONS (caches w') = true /\
    cs_get OFFLINE_ACTIONS (caches w') =
      if replayed p (k, r)
      then store_delete k (cs_get OFFLINE_ACTIONS (caches w))
      else cs_get OFFLINE_ACTIONS (caches w).
Proof.
  intros Hhas Hr.
  unfold sync_item, attempts, replayed, resubmission, selected. cbn.
  destruct (Str.includes k (pass_marker p)); cbn.
  2:{ exists w. repeat split; trivial. now rewrite app_nil_r. }
  unfold try_catch, bind, cache_match. cbn. rewrite Hr. cbn.
  destruct (JSON_parse (body r)) as [data|]; cbn.
  2:{ eexists. split; [reflexivity|]. cbn. repeat split; trivial.
      now rewrite app_nil_r. }
  unfold fetch.
  destruct (network (new_Request_init (pass_target p k) "POST" json_headers
                       (JSON_stringify data))); cbn.
  - eexists. split; [reflexivity|].
    cbn [fetch_log caches with_caches with_fetch with_console].
    repeat split.
    + now rewrite cs_has_update.
    + now rewrite cs_get_update_same.
  - eexists. split; [reflexivity|].
    cbn [fetch_log caches with_caches with_fetch with_console].
    now repeat split.
Qed.

(** The loop over the keys of [rest], the part of the queue not yet
    visited, [kept] being what the turns before left in place. *)
Lemma sync_loop (p : Pass) (rest kept : Cache) (w : World) :
  cs_has OFFLINE_ACTIONS (caches w) = true ->
  cs_get OFFLINE_ACTIONS (caches w) = kept ++ rest ->
  NoDup (map fst (kept ++ rest)) ->
  exists w',
    for_each (map (fun e => key_Request (fst e)) rest)
      (sync_item p OFFLINE_ACTIONS) w = (Returned tt, w') /\
    fetch_log w' = fetch_log w ++ flat_map (attempts p) rest /\
    cs_get OFFLINE_ACTIONS (caches w') =
      kept ++ filter (fun item => negb (replayed p item)) rest.
Proof.
  revert kept w. induction rest as [|[k r] rest IH]; intros kept w Hhas Hq Hnd.
  - exists w. cbn. repeat split; trivial. now rewrite app_nil_r.
  - assert (Hk_kept : ~ In k (map fst kept)).
    { rewrite map_app in Hnd. cbn in Hnd.
      apply NoDup_remove_2 in Hnd. intros Hin. apply Hnd.
      apply in_or_app. now left. }
    assert (Hk_rest : ~ In k (map fst rest)).
    { rewrite map_app in Hnd. cbn in Hnd.
      apply NoDup_remove_2 in Hnd. intros Hin. apply Hnd.
      apply in_or_app. now right. }
    assert (Hr : store_match k (cs_get OFFLINE_ACTIONS (caches w)) = Some r).
    { rewrite Hq. unfold store_match.
      rewrite (assoc_app_absent _ _ _ (assoc_absent _ _ Hk_kept)).
      cbn. now rewrite String.eqb_refl. }
    destruct (sync_item_step p k r w Hhas Hr) as (w1 & Hrun & Hlog & Hhas1 & Hq1).
    cbn [map for_each fst].
    rewrite (run_bind _ _ _ _ _ Hrun).
    destruct (replayed p (k, r)) eqn:Erep.
    + (* sent and deleted *)
      assert (Hq1' : cs_get OFFLINE_ACTIONS (caches w1) = kept ++ rest).
      { rewrite Hq1, Hq. unfold store_delete. rewrite filter_app. cbn.
        rewrite String.eqb_refl. cbn.
        fold (store_delete k kept). fold (store_delete k rest).
        now rewrite !store_delete_absent. }
      assert (Hnd' : NoDup (map fst (kept ++ rest))).
      { rewrite map_app in *. cbn in Hnd. now apply NoDup_remove_1 in Hnd. }
      destruct (IH kept w1 Hhas1 Hq1' Hnd') as (w' & Hrun' & Hlog' & Hq').
      exists w'. split; [exact Hrun'|]. split.
      * rewrite Hlog', Hlog. cbn. now rewrite app_assoc.
      * rewrite Hq'. cbn. now rewrite Erep.
    + (* left in place *)
      assert (Hq1' : cs_get OFFLINE_ACTIONS (caches w1)
                     = (kept ++ [(k, r)]) ++ rest).
      { rewrite Hq1, Hq. now rewrite <- app_assoc. }
      assert (Hnd' : NoDup (map fst ((kept ++ [(k, r)]) ++ rest))).
      { now rewrite <- app_assoc. }
      destruct (IH (kept ++ [(k, r)]) w1 Hhas1 Hq1' Hnd')
        as (w' & Hrun' & Hlog' & Hq').
      exists w'. split; [exact Hrun'|]. split.
      * rewrite Hlog', Hlog. cbn. now rewrite app_assoc.
      * rewrite Hq'. cbn. rewrite Erep. cbn. now rewrite <- app_assoc.
Qed.

Lemma run_pass_effect (p : Pass) (w : World) :
  NoDup (map fst (cs_get OFFLINE_ACTIONS (caches w))) ->
  exists w',
    run_pass p w = (Returned tt, w') /\
    fetch_log w' =
      fetch_log w ++
      flat_map (attempts p) (cs_get OFFLINE_ACTIONS (caches w)) /\
    cs_get OFFLINE_ACTIONS (caches w') =
      filter (fun item => negb (replayed p item))
        (cs_get OFFLINE_ACTIONS (caches w)).
Proof.
  intros Hnd.
  pose (w0 := with_caches (cs_open OFFLINE_ACTIONS) w).
  assert (Hq0 : cs_get OFFLINE_ACTIONS (caches w0) =
                [] ++ cs_get OFFLINE_ACTIONS (caches w)).
  { cbn. apply cs_get_open. }
  destruct (sync_loop p (cs_get OFFLINE_ACTIONS (caches w)) [] w0
              (cs_has_open _ _) Hq0 Hnd) as (w' & Hrun & Hlog & Hq).
  exists w'. split; [|split; [exact Hlog | exact Hq]].
  rewrite run_pass_as_loop. apply run_try_returned.
  unfold bind at 1. cbn. rewrite cs_get_open. exact Hrun.
Qed.

End Sync.




(** The alert pass also takes a sighting kept under its alert: it posts
    the payload to [/api/alerts] and deletes the action. *)
Example nested_sighting_goes_to_alerts :
  map req_url
    (fetch_log (after (on_sync (P := Sample.online Sample.docs) "sync-alerts")
                  Sample.nested_queue)) =
    ["https://cartrace.example/api/alerts"] /\
  cs_get OFFLINE_ACTIONS
    (caches (after (on_sync (P := Sample.online Sample.docs) "sync-alerts")
               Sample.nested_queue)) = [].
Proof. split; reflexivity. Qed.

(** A fetch that is answered counts as sent, whatever the status: the
    sighting is deleted although the server answered with a 500. *)
Example server_error_still_deletes :
  cs_get OFFLINE_ACTIONS
    (caches (after (on_sync (P := Sample.broken_server Sample.docs)
                      "sync-sightings")
               Sample.mixed_queue)) =
    [("https://cartrace.example/api/alerts", Sample.ok_Response "{}")].
Proof. reflexivity. Qed.



(** * Further properties of the worker *)

(** ** The classification of requests *)

Lemma length_append (a b : string) :
  String.length (a ++ b) = String.length a + String.length b.
Proof. induction a as [|c a IH]; cbn; [reflexivity | now rewrite IH]. Qed.

Lemma substring_all (s : string) :
  String.substring 0 (String.length s) s = s.
Proof. induction s as [|c s IH]; cbn; [reflexivity | now rewrite IH]. Qed.

Lemma substring_skip (a b : string) (m : nat) :
  String.substring (String.length a) m (a ++ b) = String.substring 0 m b.
Proof. induction a as [|c a IH]; cbn; [reflexivity | exact IH]. Qed.

Lemma substring_split (k : nat) (s : string) :
  k <= String.length s ->
  s = (String.substring 0 k s ++
       String.substring k (String.length s - k) s)%string.
Proof.
  revert k. induction s as [|c s IH]; intros k Hk; cbn in *.
  - destruct k; [reflexivity | inversion Hk].
  - destruct k as [|k]; cbn.
    + now rewrite substring_all.
    + f_equal. apply IH. now apply le_S_n.
Qed.

Lemma endsWith_spec (s p : string) :
  Str.endsWith s p = true <-> exists stem, s = (stem ++ p)%string.
Proof.
  unfold Str.endsWith. split.
  - intros H. apply andb_true_iff in H. destruct H as [Hle Heq].
    apply Nat.leb_le in Hle. apply String.eqb_eq in Heq.
    exists (String.substring 0 (String.length s - String.length p) s).
    pose proof (substring_split (String.length s - String.length p) s
                  ltac:(lia)) as Hs.
    replace (String.length s - (String.length s - String.length p))
      with (String.length p) in Hs by lia.
    now rewrite Heq in Hs.
  - intros [stem ->]. rewrite length_append.
    apply andb_true_iff. split.
    + apply Nat.leb_le. lia.
    + replace (String.length stem + String.length p - String.length p)
        with (String.length stem) by lia.
      rewrite substring_skip, substring_all.
      apply String.eqb_refl.
Qed.

(** X1. A pathname counts as a static asset exactly when it ends with
    one of the seven extensions, in this very spelling. *)
Theorem isStaticAsset_spec (pathname : string) :
  isStaticAsset pathname = true <->
  exists stem ext,
    In ext static_extensions /\ pathname = (stem ++ ext)%string.
Proof.
  unfold isStaticAsset, static_extensions. split.
  - intros H.
    repeat (apply orb_true_iff in H; destruct H as [H|H]);
      apply endsWith_spec in H; destruct H as [stem ->];
      exists stem; eexists; (split; [|reflexivity]); cbn; tauto.
  - intros (stem & ext & Hin & ->).
    assert (E : Str.endsWith (stem ++ ext) ext = true)
      by (apply endsWith_spec; now exists stem).
    cbn in Hin.
    repeat (destruct Hin as [<- | Hin];
            [rewrite E; cbn; now rewrite ?orb_true_r|]).
    contradiction.
Qed.

(** ** The strategies, run by run *)

Lemma is_GET_true (request : Request) :
  req_method request = "GET" -> is_GET request = true.
Proof. unfold is_GET. now intros ->. Qed.

Lemma is_GET_false (request : Request) :
  req_method request <> "GET" -> is_GET request = false.
Proof.
  unfold is_GET. intros H.
  destruct (String.eqb_spec (req_method request) "GET");
    [contradiction | reflexivity].
Qed.


(** What [cacheFirst] answers and what it leaves in the static cache. *)
Lemma cacheFirst_facts (P : Platform) (request : Request) (w : World) :
  is_GET request = true ->
  result (cacheFirst request) w =
    Returned
      match store_match (req_url request) (cs_get CACHE_NAME (caches w)) with
      | Some cached => cached
      | None =>
          match network request with
          | Some response => response
          | None => text_Response "Offline - Resource not cached" 503
                      "Service Unavailable"
          end
      end /\
  cs_get CACHE_NAME (caches (after (cacheFirst request) w)) =
    match network request with
    | Some response =>
        if Nat.eqb (status response) 200
        then store_put (req_url request) response
               (cs_get CACHE_NAME (caches w))
        else cs_get CACHE_NAME (caches w)
    | None => cs_get CACHE_NAME (caches w)
    end /\
  fetch_log (after (cacheFirst request) w) = fetch_log w ++ [request] /\
  (forall name, name <> CACHE_NAME ->
     cs_get name (caches (after (cacheFirst request) w)) =
     cs_get name (caches w)).
Proof.
  intros Hget.
  unfold result, after, cacheFirst, try_catch, bind, caches_open,
    cache_match. cbn. rewrite Hget, cs_get_open.
  destruct (store_match (req_url request) (cs_get CACHE_NAME (caches w)));
    cbn; unfold detached, bind, fetch, cache_put; rewrite ?Hget;
    destruct (network request) as [response|]; cbn;
    try destruct (Nat.eqb (status response) 200); cbn;
    rewrite ?Hget; cbn;
    repeat split;
    try (intros name Hne);
    rewrite ?cs_get_update_same by apply cs_has_open;
    rewrite ?cs_get_update_other by assumption;
    rewrite ?cs_get_open; reflexivity.
Qed.

(** What [networkFirst] does when the network answers. *)
Lemma networkFirst_online (P : Platform) (request : Request)
  (response : Response) (w : World) :
  network request = Some response ->
  result (networkFirst request) w = Returned (Some response) /\
  caches (after (networkFirst request) w) =
    (if Nat.eqb (status response) 200
     then if is_GET request
          then cs_update CACHE_NAME (store_put (req_url request) response)
                 (cs_open CACHE_NAME (caches w))
          else cs_open CACHE_NAME (caches w)
     else caches w) /\
  unhandled (after (networkFirst request) w) =
    unhandled w ++
    (if Nat.eqb (status response) 200 && negb (is_GET request)
     then [TypeError] else []).
Proof.
  intros Hnet.
  unfold result, after, networkFirst, try_catch, bind, fetch.
  rewrite Hnet. cbn.
  destruct (Nat.eqb (status response) 200); cbn.
  - unfold detached, cache_put. cbn.
    destruct (is_GET request); cbn; repeat split.
    now rewrite app_nil_r.
  - repeat split. now rewrite app_nil_r.
Qed.

(** What [apiNetworkFirst] does when the network answers. *)
Lemma apiNetworkFirst_online (P : Platform) (request : Request)
  (response : Response) (w : World) :
  network request = Some response ->
  result (apiNetworkFirst request) w = Returned response /\
  caches (after (apiNetworkFirst request) w) =
    (if Nat.eqb (status response) 200
     then if is_GET request
          then cs_update API_CACHE_NAME
                 (store_put (req_url request) response)
                 (cs_open API_CACHE_NAME (caches w))
          else cs_open API_CACHE_NAME (caches w)
     else caches w).
Proof.
  intros Hnet.
  unfold result, after, apiNetworkFirst, try_catch, bind, fetch.
  rewrite Hnet. cbn.
  destruct (Nat.eqb (status response) 200); cbn.
  - unfold detached, cache_put. cbn.
    destruct (is_GET request); cbn; now repeat split.
  - now repeat split.
Qed.

(** What [apiNetworkFirst] answers when the fetch fails. *)
Lemma apiNetworkFirst_offline (P : Platform) (request : Request) (w : World) :
  network request = None ->
  is_GET request = true ->
  result (apiNetworkFirst request) w =
    Returned
      match store_match (req_url request)
              (cs_get API_CACHE_NAME (caches w)) with
      | Some cached =>
          {| status := status cached;
             statusText := statusText cached;
             headers := headers_set "X-Offline-Response" "true"
                          (headers cached);
             body := body cached |}
      | None =>
          {| status := 503;
             statusText := "";
             headers := headers_set "Content-Type" "application/json" [];
             body := JSON_stringify offline_error |}
      end.
Proof.
  intros Hnet Hget.
  unfold result, apiNetworkFirst, try_catch, bind, fetch.
  rewrite Hnet. cbn. rewrite Hget, cs_get_open.
  now destruct (store_match (req_url request)
                  (cs_get API_CACHE_NAME (caches w))).
Qed.

(** ** Writes *)

(** X2. A request that is not a GET never changes what any cache holds,
    whatever the network does.  When the network answers, the answer is
    passed on; if its status is 200 the script still tries to store it,
    the cache refuses, and the refusal is a rejection nobody handles. *)
Theorem write_is_never_cached (P : Platform) (request : Request) (w : World) :
  req_method request <> "GET" ->
  (forall name,
     cs_get name (caches (after (on_fetch request) w)) =
     cs_get name (caches w)) /\
  (forall response,
     network request = Some response ->
     result (on_fetch request) w = Returned (Some response) /\
     unhandled (after (on_fetch request) w) =
       unhandled w ++
       (if Nat.eqb (status response) 200 then [TypeError] else [])).
Proof.
  intros Hm. pose proof (is_GET_false request Hm) as Hget.
  rewrite (on_fetch_write P request Hm).
  destruct (network request) as [response|] eqn:Hnet.
  - destruct (networkFirst_online P request response w Hnet)
      as (Hr & Hc & Hu).
    rewrite Hget in Hc, Hu. rewrite andb_true_r in Hu. split.
    + intros name. rewrite Hc.
      destruct (Nat.eqb (status response) 200);
        [apply cs_get_open | reflexivity].
    + intros r [= <-]. now split.
  - split; [|intros r [=]].
    intros name. unfold after.
    rewrite (networkFirst_offline P request w Hnet)
      by (rewrite Hget; reflexivity).
    cbv zeta.
    destruct (headers_get "Accept" (req_headers request)) as [accept|];
      [|reflexivity].
    destruct (Str.includes accept "text/html"); [|reflexivity].
    cbn. apply cs_get_open.
Qed.

Lemma write_is_never_cached_witness :
  cs_get CACHE_NAME
    (caches (after (on_fetch (P := Sample.online []) Sample.alert_post)
               Sample.fresh)) = [] /\
  unhandled (after (on_fetch (P := Sample.online []) Sample.alert_post)
               Sample.fresh) = [TypeError].
Proof.
  pose proof (write_is_never_cached (Sample.online []) Sample.alert_post
                Sample.fresh ltac:(discriminate)) as [Hc Hr].
  split.
  - exact (Hc CACHE_NAME).
  - exact (proj2 (Hr (Sample.ok_Response "ok") eq_refl)).
Defined.

(** ** Static assets *)





(** ** Pages and API reads *)











(** ** What the fetch listener always does *)



(** X9. An API read and a static-asset request are always answered
    with a response: for these two classes the handler neither throws
    nor settles to [undefined], whatever the network and the caches. *)
Theorem api_and_static_reads_are_answered (P : Platform)
  (request : Request) (w : World) :
  req_method request = "GET" ->
  Str.startsWith (URL_pathname (req_url request)) "/api/" = true \/
  isStaticAsset (URL_pathname (req_url request)) = true ->
  exists r, result (on_fetch request) w = Returned (Some r).
Proof.
  intros Hm Hclass. pose proof (is_GET_true _ Hm) as Hget.
  destruct (Str.startsWith (URL_pathname (req_url request)) "/api/") eqn:Hp.
  - rewrite (on_fetch_api P request Hm Hp).
    destruct (network request) as [response|] eqn:Hnet.
    + destruct (apiNetworkFirst_online P request response w Hnet)
        as (Hr & _).
      exists response. unfold result in *. unfold bind.
      destruct (apiNetworkFirst request w) as [o w1]. cbn in Hr.
      now subst o.
    + pose proof (apiNetworkFirst_offline P request w Hnet Hget) as Hr.
      eexists. unfold result in *. unfold bind.
      destruct (apiNetworkFirst request w) as [o w1]. cbn in Hr.
      subst o. reflexivity.
  - destruct Hclass as [Habs | Hs]; [discriminate|].
    rewrite (on_fetch_static P request Hm Hp Hs).
    destruct (cacheFirst_facts P request w Hget) as (Hr & _).
    eexists. unfold result in *. unfold bind.
    destruct (cacheFirst request w) as [o w1]. cbn in Hr.
    subst o. reflexivity.
Qed.

Lemma api_and_static_reads_are_answered_witness :
  exists r,
    result (on_fetch (P := Sample.offline) (Sample.get "/app.js" None))
      Sample.fresh = Returned (Some r).
Proof.
  exact (api_and_static_reads_are_answered Sample.offline
           (Sample.get "/app.js" None) Sample.fresh eq_refl
           (or_intror eq_refl)).
Defined.

(** ** Precaching *)









(** ** Activation, once more *)

Lemma on_activate_run (w : World) :
  exists w1,
    on_activate w =
      (Returned tt,
       with_claimed
         (with_console "[Service Worker] Activation complete" w1)).
Proof.
  pose (w0 := with_console "[Service Worker] Activating..." w).
  pose (names := filter is_old_cache (map fst (caches w))).
  destruct (delete_loop names w0) as (w1 & Hrun & _).
  exists w1.
  change (on_activate w) with
    (bind (for_each names delete_old)
       (fun _ => console_log "[Service Worker] Activation complete" ;;
                 clients_claim) w0).
  now rewrite (run_bind _ _ _ _ _ Hrun).
Qed.

(** X11. Activation claims the clients and leaves alone every cache
    whose name does not start with [cartrace-], the pending actions among
    them; activating again changes no cache. *)
Theorem activate_spares_other_caches (w : World) :
  let w' := after on_activate w in
  claimed w' = true /\
  (forall name,
     Str.startsWith name "cartrace-" = false ->
     cs_has name (caches w') = cs_has name (caches w) /\
     cs_get name (caches w') = cs_get name (caches w)) /\
  cs_get OFFLINE_ACTIONS (caches w') = cs_get OFFLINE_ACTIONS (caches w) /\
  caches (after on_activate w') = caches w'.
Proof.
  intros w'. subst w'.
  destruct (on_activate_caches w) as [_ Hc].
  destruct (on_activate_caches (after on_activate w)) as [_ Hc2].
  assert (Hkeep : forall n, is_old_cache n = false ->
            assoc n (caches (after on_activate w)) = assoc n (caches w)).
  { intros n Hn. rewrite Hc.
    apply (assoc_filter_keep (fun k => negb (is_old_cache k))).
    now rewrite Hn. }
  split; [|split; [|split]].
  - destruct (on_activate_run w) as (w1 & E). unfold after. now rewrite E.
  - intros name Hp.
    assert (Hn : is_old_cache name = false)
      by (unfold is_old_cache; now rewrite Hp).
    split.
    + now rewrite !cs_has_assoc, Hkeep.
    + unfold cs_get. now rewrite Hkeep.
  - unfold cs_get. now rewrite Hkeep.
  - rewrite Hc2, Hc, filter_filter. apply filter_ext.
    intros e. apply andb_diag.
Qed.

(** ** Messages, once more *)



(** X13. A CLEAR_CACHE message that names a cache deletes that cache,
    whichever it is, and no other; the empty name counts as no name and
    deletes the current static cache. *)
Theorem clear_cache_deletes_the_named_cache (P : Platform)
  (urls : list string) (name : string) (w : World) :
  let m := {| msg_type := "CLEAR_CACHE"; msg_urls := urls;
              msg_cacheName := Some name |} in
  let target := if String.eqb name "" then CACHE_NAME else name in
  let w' := after (on_message m) w in
  result (on_message m) w = Returned tt /\
  caches w' = cs_delete target (caches w) /\
  cs_has target (caches w') = false /\
  (forall other, other <> target ->
     cs_get other (caches w') = cs_get other (caches w)).
Proof.
  cbn. repeat split.
  - apply cs_has_delete.
  - intros other Hne. now apply cs_get_delete_other.
Qed.

(** ** Sync, once more *)

Lemma NoDup_keys_filter {A} (f : string * A -> bool)
  (l : list (string * A)) :
  NoDup (map fst l) -> NoDup (map fst (filter f l)).
Proof.
  induction l as [|[k v] l IH]; cbn; [trivial|].
  intros Hnd. inversion Hnd as [|? ? Hk Hl]; subst.
  destruct (f (k, v)); cbn; [|now apply IH].
  constructor; [|now apply IH].
  intros Hin. apply Hk. apply in_map_iff in Hin.
  destruct Hin as ([k' v'] & Hfst & Hin). cbn in Hfst. subst k'.
  apply filter_In in Hin. apply in_map_iff. now exists (k, v').
Qed.

Lemma attempts_of_kept_fail (P : Platform) (p : Pass) (item : Action)
  (request : Request) :
  replayed p item = false ->
  In request (attempts p item) ->
  network request = None.
Proof.
  unfold replayed, attempts.
  destruct (selected p item); cbn; [|contradiction].
  destruct (resubmission p item) as [r|]; [|contradiction].
  intros Hrep [<- | []]. now destruct (network r).
Qed.

(** X14. On the same network a second pass changes nothing: it sends
    again exactly what the first pass left in the queue and could send,
    every one of these fetches fails again, and the queue stays as the
    first pass left it. *)
Theorem second_pass_changes_nothing (P : Platform) (p : Pass) (w : World) :
  NoDup (map fst (cs_get OFFLINE_ACTIONS (caches w))) ->
  let w1 := after (run_pass p) w in
  let w2 := after (run_pass p) w1 in
  result (run_pass p) w1 = Returned tt /\
  cs_get OFFLINE_ACTIONS (caches w2) = cs_get OFFLINE_ACTIONS (caches w1) /\
  fetch_log w2 =
    fetch_log w1 ++
    flat_map (attempts p) (cs_get OFFLINE_ACTIONS (caches w1)) /\
  (forall request,
     In request (flat_map (attempts p)
                   (cs_get OFFLINE_ACTIONS (caches w1))) ->
     network request = None).
Proof.
  intros Hnd w1 w2. subst w1 w2.
  destruct (run_pass_effect p w Hnd) as (w1 & Hrun1 & _ & Hq1).
  assert (Ew1 : after (run_pass p) w = w1)
    by (unfold after; now rewrite Hrun1).
  rewrite !Ew1.
  assert (Hnd1 : NoDup (map fst (cs_get OFFLINE_ACTIONS (caches w1)))).
  { rewrite Hq1. now apply NoDup_keys_filter. }
  destruct (run_pass_effect p w1 Hnd1) as (w2 & Hrun2 & Hlog2 & Hq2).
  unfold result, after. rewrite Hrun2. cbn [fst snd].
  split; [reflexivity|]. split; [|split; [exact Hlog2|]].
  - rewrite Hq2, Hq1, filter_filter. apply filter_ext.
    intros e. apply andb_diag.
  - intros request Hin. apply in_flat_map in Hin.
    destruct Hin as (item & Hitem & Hreq).
    rewrite Hq1 in Hitem. apply filter_In in Hitem.
    destruct Hitem as [_ Hrep].
    apply (attempts_of_kept_fail P p item); [|exact Hreq].
    now destruct (replayed p item).
Qed.

Lemma second_pass_changes_nothing_witness :
  cs_get OFFLINE_ACTIONS
    (caches (after (run_pass (P := Sample.offline) Sightings)
               (after (run_pass (P := Sample.offline) Sightings)
                  Sample.mixed_queue))) =
  cs_get OFFLINE_ACTIONS
    (caches (after (run_pass (P := Sample.offline) Sightings)
               Sample.mixed_queue)).
Proof.
  assert (Hnd : NoDup (map fst (cs_get OFFLINE_ACTIONS
                                  (caches Sample.mixed_queue)))).
  { repeat constructor; cbn; intuition discriminate. }
  pose proof (second_pass_changes_nothing Sample.offline Sightings
                Sample.mixed_queue Hnd) as H.
  cbv zeta in H. exact (proj1 (proj2 H)).
Defined.

Section SyncFrame.

Context {P : Platform}.

(** One turn of the loop, on any request: it returns, and touches no
    cache but the one it was given. *)
Lemma sync_item_frame (p : Pass) (request : Request) (w : World) :
  exists w',
    sync_item p OFFLINE_ACTIONS request w = (Returned tt, w') /\
    (forall name, name <> OFFLINE_ACTIONS ->
       cs_get name (caches w') = cs_get name (caches w)) /\
    shown w' = shown w /\ ui w' = ui w /\
    skipped_waiting w' = skipped_waiting w /\ claimed w' = claimed w.
Proof.
  unfold sync_item.
  destruct (Str.includes (req_url request) (pass_marker p)).
  2:{ exists w. now repeat split. }
  unfold try_catch, bind, cache_match, response_json, fetch, cache_delete,
    console_error, throw, ret.
  destruct (is_GET request);
    [destruct (store_match (req_url request)
                 (cs_get OFFLINE_ACTIONS (caches w))) as [r|]|];
    cbn;
    try (destruct (JSON_parse (body r)) as [data|]; cbn);
    try (destruct (network
                     (new_Request_init (pass_target p (req_url request))
                        "POST" json_headers (JSON_stringify data)));
         cbn);
    eexists; (split; [reflexivity|]); cbn; repeat split;
    intros name Hne; now rewrite ?cs_get_update_other.
Qed.

Lemma sync_loop_frame (p : Pass) (requests : list Request) (w : World) :
  exists w',
    for_each requests (sync_item p OFFLINE_ACTIONS) w = (Returned tt, w') /\
    (forall name, name <> OFFLINE_ACTIONS ->
       cs_get name (caches w') = cs_get name (caches w)) /\
    shown w' = shown w /\ ui w' = ui w /\
    skipped_waiting w' = skipped_waiting w /\ claimed w' = claimed w.
Proof.
  revert w. induction requests as [|request requests IH]; intros w.
  - exists w. now repeat split.
  - destruct (sync_item_frame p request w)
      as (w1 & Hrun & Hc & Hs & Hu & Hk & Hcl).
    destruct (IH w1) as (w' & Hrun' & Hc' & Hs' & Hu' & Hk' & Hcl').
    exists w'. cbn [for_each]. rewrite (run_bind _ _ _ _ _ Hrun).
    split; [exact Hrun'|]. repeat split; try congruence.
    intros name Hne. now rewrite Hc', Hc.
Qed.

Lemma run_pass_frame (p : Pass) (w : World) :
  exists w',
    run_pass p w = (Returned tt, w') /\
    (forall name, name <> OFFLINE_ACTIONS ->
       cs_get name (caches w') = cs_get name (caches w)) /\
    shown w' = shown w /\ ui w' = ui w /\
    skipped_waiting w' = skipped_waiting w /\ claimed w' = claimed w.
Proof.
  pose (w0 := with_caches (cs_open OFFLINE_ACTIONS) w).
  destruct (sync_loop_frame p
              (map (fun e => key_Request (fst e))
                 (cs_get OFFLINE_ACTIONS (caches w0))) w0)
    as (w' & Hrun & Hc & Hrest).
  exists w'. split.
  - rewrite run_pass_as_loop. apply run_try_returned.
    unfold bind at 1. cbn. exact Hrun.
  - split; [|exact Hrest].
    intros name Hne. rewrite (Hc name Hne). cbn. apply cs_get_open.
Qed.

End SyncFrame.

(** X15. A sync event, whatever its tag and whatever the state of the
    queue, never makes the handler throw and never changes what another
    cache than the pending actions holds; a tag other than the two known
    ones has no effect at all. *)
Theorem sync_touches_only_the_queue (P : Platform) (tag : string)
  (w : World) :
  let w' := after (on_sync tag) w in
  result (on_sync tag) w = Returned tt /\
  (forall name, name <> OFFLINE_ACTIONS ->
     cs_get name (caches w') = cs_get name (caches w)) /\
  (tag <> "sync-alerts" -> tag <> "sync-sightings" -> w' = w).
Proof.
  intros w'. subst w'. unfold on_sync, result, after.
  destruct (String.eqb_spec tag "sync-alerts") as [->|Ha].
  - cbn [String.eqb Ascii.eqb Bool.eqb].
    destruct (run_pass_frame Alerts w) as (w1 & Hrun & Hc & _).
    change (run_pass Alerts) with syncAlerts in Hrun.
    rewrite (run_bind _ _ _ _ _ Hrun). cbn.
    split; [reflexivity|]. split; [exact Hc|]. now intros H.
  - destruct (String.eqb_spec tag "sync-sightings") as [->|Hs].
    + destruct (run_pass_frame Sightings w) as (w1 & Hrun & Hc & _).
      change (run_pass Sightings) with syncSightings in Hrun.
      unfold bind at 1. cbn. rewrite Hrun. cbn.
      split; [reflexivity|]. split; [exact Hc|]. now intros _ H.
    + cbn. now repeat split.
Qed.

(** ** Notifications, once more *)

(** X16. What a push with a payload does.  A payload that is not JSON
    makes the handler throw a SyntaxError, and the payload [null] a
    TypeError; nothing is shown then.  For an object, each of title,
    body, tag and data is taken from the payload when it is there and
    truthy, and is the default otherwise; any other JSON value gives the
    default notification. *)
Theorem push_with_payload (P : Platform) (text : string) (w : World) :
  match JSON_parse text with
  | None => on_push (Some text) w = (Threw SyntaxError, w)
  | Some JNull => on_push (Some text) w = (Threw TypeError, w)
  | Some (JObj fields) =>
      on_push (Some text) w =
        (Returned tt,
         with_shown
           {| n_title := js_or (assoc "title" fields) (JStr "CarTrace Pro");
              n_body := js_or (assoc "body" fields)
                          (JStr "New stolen vehicle alert");
              n_icon := "/icon-192.png";
              n_badge := "/badge-72.png";
              n_vibrate := [200; 100; 200]%nat;
              n_tag := js_or (assoc "tag" fields) (JStr "general");
              n_data := js_or (assoc "data" fields) (JObj []);
              n_actions := [("view", "View Alert"); ("close", "Dismiss")] |}
           w)
  | Some _ =>
      on_push (Some text) w = (Returned tt, with_shown default_notification w)
  end.
Proof.
  unfold on_push, bind.
  destruct (JSON_parse text) as [[]|]; reflexivity.
Qed.

Lemma js_or_truthy (v : option json) (d : json) :
  truthy d = true -> truthy (js_or v d) = true.
Proof.
  intros Hd. unfold js_or. destruct v as [x|]; [|exact Hd].
  now destruct (truthy x) eqn:E.
Qed.

Lemma click_returns (P : Platform) (n : Notification) (action : string)
  (w : World) :
  truthy (n_data n) = true ->
  exists rest,
    on_notificationclick n action w =
      (Returned tt,
       fold_left (fun w' a => with_ui a w') (Closed n :: rest) w) /\
    length rest <= 1.
Proof.
  intros Hdata. unfold on_notificationclick, bind, notification_close.
  destruct (String.eqb action "view").
  2:{ exists []. split; [reflexivity | cbn; lia]. }
  assert (Hprop : exists v, get_prop (n_data n) "url" =
                            (fun w0 => (Returned v, w0))).
  { destruct (n_data n); try discriminate; eexists; reflexivity. }
  destruct Hprop as [v Hv]. rewrite Hv. cbn.
  destruct (find _ (windows w)) as [client|].
  - exists [Focused client]. split; [reflexivity | cbn; lia].
  - destruct has_openWindow.
    + eexists [Opened _]. split; [reflexivity | cbn; lia].
    + exists []. split; [reflexivity | cbn; lia].
Qed.

(** X17. A notification shown by the push handler can always be
    clicked: its data is never [null], so the click handler does not
    throw, whatever the action and the state; it closes the notification
    and does at most one thing more. *)
Theorem pushed_notification_can_be_clicked (P : Platform)
  (data_text : option string) (w : World) (n : Notification) :
  shown (after (on_push data_text) w) = shown w ++ [n] ->
  truthy (n_data n) = true /\
  forall action w2,
    exists rest,
      on_notificationclick n action w2 =
        (Returned tt,
         fold_left (fun w' a => with_ui a w') (Closed n :: rest) w2) /\
      length rest <= 1.
Proof.
  intros Hshown.
  assert (Hdata : truthy (n_data n) = true).
  { revert Hshown. unfold after, on_push, bind.
    assert (Hno : shown w = shown w ++ [n] -> truthy (n_data n) = true).
    { intros E. apply (f_equal (@length _)) in E.
      rewrite length_app in E. cbn in E. lia. }
    destruct data_text as [text|].
    - destruct (JSON_parse text) as [[]|]; cbn; try exact Hno;
        intros E; apply app_inv_head in E; injection E as <-;
        try reflexivity.
      cbn. now apply js_or_truthy.
    - cbn. intros E. apply app_inv_head in E. now injection E as <-. }
  split; [exact Hdata|].
  intros action w2. now apply click_returns.
Qed.

Lemma pushed_notification_can_be_clicked_witness :
  truthy (n_data default_notification) = true /\
  forall action w2,
    exists rest,
      on_notificationclick (P := Sample.offline) default_notification
        action w2 =
        (Returned tt,
         fold_left (fun w' a => with_ui a w')
           (Closed default_notification :: rest) w2) /\
      length rest <= 1.
Proof.
  exact (pushed_notification_can_be_clicked Sample.offline None
           Sample.fresh default_notification eq_refl).
Defined.

(** ** One entry a URL, in every reachable state *)





Lemma cs_get_update_cases (name name' : string) (f : Cache -> Cache)
  (cs : CacheStorage) :
  cs_get name (cs_update name' f cs) = cs_get name cs \/
  cs_get name (cs_update name' f cs) = f (cs_get name cs).
Proof.
  destruct (String.eqb_spec name name') as [->|Hne].
  - destruct (cs_has name' cs) eqn:Hhas.
    + right. now apply cs_get_update_same.
    + left. unfold cs_get. f_equal.
      rewrite cs_has_assoc in Hhas.
      induction cs as [|[n c] cs IH]; cbn in *; [reflexivity|].
      destruct (String.eqb name' n) eqn:E; [discriminate|].
      cbn. rewrite E. now apply IH.
  - left. now apply cs_get_update_other.
Qed.





Section Keeps.

Context {P : Platform}.






















End Keeps.





(** ** Nothing fills the queue *)

Section NoProducer.

Context {P : Platform}.

Lemma quiet_ret {A} (a : A) : adds_no_action (ret a).
Proof. intros w item H. exact H. Qed.

Lemma quiet_throw {A} (e : error) : adds_no_action (@throw A e).
Proof. intros w item H. exact H. Qed.

Lemma quiet_bind {A B} (m : Task A) (k : A -> Task B) :
  adds_no_action m -> (forall a, adds_no_action (k a)) ->
  adds_no_action (bind m k).
Proof.
  intros Hm Hk w item. specialize (Hm w item). unfold after, bind in *.
  destruct (m w) as [[a|e] w1]; cbn in *; [|exact Hm].
  intros H. apply Hm. now apply (Hk a w1).
Qed.

(** The handle [caches.open] returns is the name it was given. *)
Lemma quiet_open {B} (name : string) (k : string -> Task B) :
  adds_no_action (k name) -> adds_no_action (bind (caches_open name) k).
Proof.
  intros Hk w item H.
  apply (Hk (with_caches (cs_open name) w)) in H.
  cbn in H. now rewrite cs_get_open in H.
Qed.

Lemma quiet_try {A} (m : Task A) (h : error -> Task A) :
  adds_no_action m -> (forall e, adds_no_action (h e)) ->
  adds_no_action (try_catch m h).
Proof.
  intros Hm Hh w item. specialize (Hm w item).
  unfold after, try_catch in *.
  destruct (m w) as [[a|e] w1]; cbn in *; [exact Hm|].
  intros H. apply Hm. now apply (Hh e w1).
Qed.

Lemma quiet_detached {A} (m : Task A) :
  adds_no_action m -> adds_no_action (detached m).
Proof.
  intros Hm w item. specialize (Hm w item). unfold after, detached in *.
  now destruct (m w) as [[a|e] w1].
Qed.

Lemma quiet_for_each {A} (l : list A) (body : A -> Task unit) :
  (forall x, adds_no_action (body x)) -> adds_no_action (for_each l body).
Proof.
  intros Hb. induction l as [|x l IH]; cbn.
  - apply quiet_ret.
  - apply quiet_bind; [apply Hb | intros _; exact IH].
Qed.

Lemma quiet_simple {A} (m : Task A) :
  (forall w, caches (after m w) = caches w) -> adds_no_action m.
Proof. intros Hm w item. now rewrite Hm. Qed.

Lemma quiet_fetch (r : Request) : adds_no_action (fetch r).
Proof. intros w item. unfold after, fetch. now destruct (network r). Qed.

Lemma quiet_caches_delete (name : string) :
  adds_no_action (caches_delete name).
Proof.
  intros w item. unfold after, caches_delete. cbn.
  destruct (String.eqb_spec OFFLINE_ACTIONS name) as [<-|Hne].
  - unfold cs_get.
    pose proof (cs_has_delete OFFLINE_ACTIONS (caches w)) as H.
    rewrite cs_has_assoc in H.
    now destruct (assoc OFFLINE_ACTIONS (cs_delete OFFLINE_ACTIONS (caches w))).
  - now rewrite cs_get_delete_other.
Qed.

Lemma quiet_cache_delete (cache : string) (r : Request) :
  adds_no_action (cache_delete cache r).
Proof.
  intros w item. unfold after, cache_delete.
  destruct (is_GET r); [|trivial]. cbn.
  destruct (cs_get_update_cases OFFLINE_ACTIONS cache
              (store_delete (req_url r)) (caches w)) as [-> | ->];
    [trivial|].
  unfold store_delete. intros H. now apply filter_In in H.
Qed.

Lemma quiet_cache_put (cache : string) (r : Request) (resp : Response) :
  cache <> OFFLINE_ACTIONS -> adds_no_action (cache_put cache r resp).
Proof.
  intros Hne w item. unfold after, cache_put.
  destruct (is_GET r); [|trivial]. cbn.
  rewrite cs_get_update_other by congruence. trivial.
Qed.

Lemma quiet_cache_addAll (cache : string) (urls : list string) :
  cache <> OFFLINE_ACTIONS -> adds_no_action (cache_addAll cache urls).
Proof.
  intros Hne w item. unfold after, cache_addAll.
  destruct (fold_with_fetch (map new_Request urls) w) as (_ & Hc & _).
  destruct (collect (map addAll_entry (map new_Request urls)));
    cbn; rewrite Hc; [|trivial].
  rewrite cs_get_update_other by congruence. trivial.
Qed.

Lemma quiet_response_json (r : option Response) :
  adds_no_action (response_json r).
Proof.
  intros w item. unfold after, response_json.
  destruct r as [resp|]; [|trivial].
  now destruct (JSON_parse (body resp)).
Qed.

Lemma quiet_get_prop (v : json) (k : string) : adds_no_action (get_prop v k).
Proof. intros w item. now destruct v. Qed.

End NoProducer.

Ltac quiet :=
  repeat first
    [ apply quiet_ret | apply quiet_throw | apply quiet_fetch
    | apply quiet_caches_delete | apply quiet_cache_delete
    | apply quiet_cache_put; discriminate
    | apply quiet_cache_addAll; discriminate
    | apply quiet_response_json | apply quiet_get_prop
    | apply quiet_simple; reflexivity
    | apply quiet_open
    | apply quiet_bind; [|intro]
    | apply quiet_try; [|intro]
    | apply quiet_detached
    | apply quiet_for_each; intro
    | match goal with
      | |- adds_no_action (match ?x with _ => _ end) => destruct x
      end ].

Lemma listener_adds_no_action (P : Platform) (e : Event) :
  adds_no_action (listener e).
Proof.
  destruct e; cbn [listener].
  - unfold on_install. quiet.
  - unfold on_activate, delete_old. quiet.
  - unfold on_fetch, cacheFirst, networkFirst, apiNetworkFirst. quiet.
  - unfold on_message. quiet.
  - unfold on_sync, syncAlerts, syncSightings. quiet.
  - unfold on_push. quiet.
  - unfold on_notificationclick. quiet.
Qed.

(** X19. Nothing in the worker produces pending actions: whatever the
    events and the network, every action found in the cache
    [offline-actions] afterwards was already there before.  The sync
    passes and a clearing message take actions out; no listener puts one
    in. *)
Theorem no_listener_queues_an_action (P : Platform) (events : list Event)
  (w : World) (item : Action) :
  In item (cs_get OFFLINE_ACTIONS (caches (run_events events w))) ->
  In item (cs_get OFFLINE_ACTIONS (caches w)).
Proof.
  revert w. induction events as [|e events IH]; intros w; cbn; [trivial|].
  intros H. apply IH in H. now apply (listener_adds_no_action P e) in H.
Qed.

Lemma no_listener_queues_an_action_witness :
  In ("https://cartrace.example/api/alerts", Sample.ok_Response "{}")
    (cs_get OFFLINE_ACTIONS (caches Sample.mixed_queue)).
Proof.
  apply (no_listener_queues_an_action (Sample.offline)
           [Fetch Sample.alert_post; Sync "sync-alerts"; Activate]
           Sample.mixed_queue).
  cbn. now left.
Defined.

(** * The API client *)

Module ApiClientFacts.

Import ApiClient.

Section Loop.

Context {P : Platform}.
Variable exchange : nat -> option Response.
Variable this : CarTraceAPI.
Variable url : string.

Lemma backoff_cons (first n : nat) :
  backoff first (S n) =
  (2 ^ Z.of_nat first * 1000)%Z :: backoff (S first) n.
Proof. reflexivity. Qed.

(** The fetch with [k] failures before it is the first to succeed. *)
Lemma from_success (value : json) (k : nat) :
  forall fuel a,
    (Z.of_nat (a + k) < retryAttempts this)%Z ->
    k < fuel ->
    (forall j, j < k -> exists e, try_once exchange (a + j) = inl e) ->
    try_once exchange (a + k) = inr value ->
    exists steps,
      request_from exchange this url fuel a =
        (steps, Resolved (Some value)) /\
      fetches steps = S k /\
      timers steps = backoff (S a) k.
Proof.
  induction k as [|k IH]; intros fuel a Hlt Hfuel Hfail Hok;
    (destruct fuel as [|fuel]; [lia|]); cbn [request_from].
  - rewrite Nat.add_0_r in *.
    destruct (Z.ltb_spec (Z.of_nat a) (retryAttempts this)); [|lia].
    rewrite Hok. eexists. now repeat split.
  - destruct (Z.ltb_spec (Z.of_nat a) (retryAttempts this)); [|lia].
    destruct (Hfail 0 ltac:(lia)) as [e He].
    rewrite Nat.add_0_r in He. rewrite He.
    destruct (Z.geb_spec (Z.of_nat (S a)) (retryAttempts this)); [lia|].
    destruct (IH fuel (S a)) as (steps & Hrun & Hf & Ht).
    + replace (S a + k) with (a + S k) by lia. exact Hlt.
    + lia.
    + intros j Hj. replace (S a + j) with (a + S j) by lia.
      apply Hfail. lia.
    + replace (S a + k) with (a + S k) by lia. exact Hok.
    + rewrite Hrun. eexists. split; [reflexivity|]. split.
      * unfold fetches in *. cbn. now rewrite Hf.
      * cbn [timers]. rewrite Ht. now rewrite backoff_cons.
Qed.



(** With a positive [retryAttempts] the first turn fetches. *)
Lemma first_turn_fetches (fuel : nat) :
  (0 < retryAttempts this)%Z ->
  exists steps outcome,
    request_from exchange this url (S fuel) 0 =
      (Fetched url :: steps, outcome).
Proof.
  intros Hpos. cbn [request_from].
  destruct (Z.ltb_spec (Z.of_nat 0) (retryAttempts this)); [|cbn in *; lia].
  destruct (try_once exchange 0); [|now eexists; eexists].
  destruct (Z.geb (Z.of_nat 1) (retryAttempts this));
    [now eexists; eexists|].
  destruct (request_from exchange this url fuel 1) as [steps out].
  now eexists; eexists.
Qed.

End Loop.


(** X21. If the fetch that has [k] failures before it, [k] below
    [retryAttempts], is answered with an [ok] response whose body is
    JSON, [request] resolves with the parsed body after [k + 1] fetches,
    having waited 2 s, 4 s, ..., 2^k s between them.  A failure is a
    rejected fetch, an answer that is not [ok], or a body that is not
    JSON: all three are retried alike. *)
Theorem request_resolves_at_first_success (P : Platform)
  (exchange : nat -> option Response) (this : CarTraceAPI)
  (endpoint : string) (k : nat) (value : json) :
  (Z.of_nat k < retryAttempts this)%Z ->
  (forall j, j < k -> exists e, try_once exchange j = inl e) ->
  try_once exchange k = inr value ->
  exists steps,
    request exchange this endpoint = (steps, Resolved (Some value)) /\
    fetches steps = S k /\
    timers steps = backoff 1 k.
Proof.
  intros Hlt Hfail Hok. unfold request.
  apply (from_success exchange this _ value k _ 0);
    [exact Hlt | lia | exact Hfail | exact Hok].
Qed.


(** X23. A client built by the constructor never gets zero as
    [retryAttempts], since a configured zero counts as missing and
    becomes three; and its [request] resolves to [undefined] without any
    fetch exactly when the configured number is negative. *)
Theorem request_without_attempt (P : Platform)
  (exchange : nat -> option Response) (config : Config) (endpoint : string) :
  retryAttempts (constructor config) <> 0%Z /\
  (config_retryAttempts config = Some 0%Z ->
   retryAttempts (constructor config) = 3%Z) /\
  (request exchange (constructor config) endpoint = ([], Resolved None) <->
   exists n, config_retryAttempts config = Some n /\ (n < 0)%Z).
Proof.
  assert (Hr : retryAttempts (constructor config) =
               number_or (config_retryAttempts config) 3) by reflexivity.
  unfold number_or in Hr.
  assert (Hrun : (0 < retryAttempts (constructor config))%Z ->
                 request exchange (constructor config) endpoint <>
                 ([], Resolved None)).
  { intros Hpos. unfold request.
    destruct (first_turn_fetches exchange (constructor config)
                (baseURL (constructor config) ++ endpoint)
                (Z.to_nat (retryAttempts (constructor config))) Hpos)
      as (steps & out & ->). discriminate. }
  destruct (config_retryAttempts config) as [n|].
  - destruct (Z.eq_dec n 0) as [Hz|Hn];
      [subst n | rewrite (proj2 (Z.eqb_neq n 0) Hn) in Hr].
    + change (retryAttempts (constructor config) = 3%Z) in Hr.
      split; [rewrite Hr; discriminate|]. split; [intros _; exact Hr|].
      split.
      * intros E. exfalso. apply Hrun; [rewrite Hr; lia | exact E].
      * intros (n & [= <-] & Hneg). lia.
    + split; [rewrite Hr; exact Hn|].
      split; [intros [= ->]; contradiction|]. split.
      * intros E. exists n. split; [reflexivity|].
        destruct (Z.ltb_spec 0 n) as [Hpos|Hneg]; [|lia].
        exfalso. apply Hrun; [rewrite Hr; exact Hpos | exact E].
      * intros (n' & [= <-] & Hneg). unfold request.
        cbn [request_from]. rewrite Hr.
        destruct (Z.ltb_spec (Z.of_nat 0) n); [cbn in *; lia | reflexivity].
  - split; [rewrite Hr; discriminate|]. split; [discriminate|]. split.
    + intros E. exfalso. apply Hrun; [rewrite Hr; lia | exact E].
    + intros (n & [=] & _).
Qed.

End ApiClientFacts.

Lemma request_resolves_at_first_success_witness :
  exists steps,
    ApiClient.request (P := Sample.browser (fun _ => None) [("[]", JArr [])])
      (fun k => if Nat.ltb k 2 then None
                else Some (Sample.ok_Response "[]"))
      (ApiClient.constructor
         {| ApiClient.config_apiKey := None;
            ApiClient.config_baseURL := None;
            ApiClient.config_timeout := None;
            ApiClient.config_retryAttempts := None |})
      "/alerts" = (steps, ApiClient.Resolved (Some (JArr []))) /\
    ApiClient.fetches steps = 3 /\
    ApiClient.timers steps = [2000; 4000]%Z.
Proof.
  refine (ApiClientFacts.request_resolves_at_first_success
            (Sample.browser (fun _ => None) [("[]", JArr [])])
            (fun k => if Nat.ltb k 2 then None
                      else Some (Sample.ok_Response "[]"))
            (ApiClient.constructor
               {| ApiClient.config_apiKey := None;
                  ApiClient.config_baseURL := None;
                  ApiClient.config_timeout := None;
                  ApiClient.config_retryAttempts := None |})
            "/alerts" 2 (JArr []) eq_refl _ eq_refl).
  intros j Hj. exists ApiClient.FetchRejected.
  destruct j as [|[|j]]; [reflexivity | reflexivity | lia].
Defined.


(** * The client and the worker together *)

Lemma prefix_app (p b : string) : String.prefix p (p ++ b) = true.
Proof.
  induction p as [|c p IH]; cbn; [now destruct b|].
  destruct (ascii_dec c c); [exact IH | contradiction].
Qed.

Lemma includes_unfold (s p : string) :
  Str.includes s p =
  String.prefix p s ||
  match s with
  | EmptyString => false
  | String _ s' => Str.includes s' p
  end.
Proof. destruct s; reflexivity. Qed.

Lemma includes_app (a p b : string) :
  Str.includes (a ++ p ++ b) p = true.
Proof.
  induction a as [|c a IH]; cbn [String.append].
  - rewrite includes_unfold, prefix_app. reflexivity.
  - rewrite includes_unfold, IH. apply orb_true_r.
Qed.

Lemma after_then_ret {A} (m : Task A) (w : World) :
  after (m ;; ret tt) w = after m w.
Proof. unfold after, bind. now destruct (m w) as [[a|e] w1]. Qed.

(** X24. The URL under which the API client reports a sighting,
    [<base>/alerts/<id>/sightings], contains [/alerts]: an action kept
    under such a URL is taken by the alert pass, which posts its payload
    to [/api/alerts] and, when that fetch is answered, deletes it, so
    that the sightings pass never sees it. *)
Theorem alert_pass_takes_reported_sightings (P : Platform)
  (base alertId : string) (r : Response) (data : json) (w : World) :
  NoDup (map fst (cs_get OFFLINE_ACTIONS (caches w))) ->
  In ((base ++ ApiClient.reportSighting_endpoint alertId)%string, r)
    (cs_get OFFLINE_ACTIONS (caches w)) ->
  JSON_parse (body r) = Some data ->
  network (new_Request_init "/api/alerts" "POST" json_headers
             (JSON_stringify data)) <> None ->
  let w' := after (on_sync "sync-alerts") w in
  In (new_Request_init "/api/alerts" "POST" json_headers
        (JSON_stringify data))
    (fetch_log w') /\
  ~ In ((base ++ ApiClient.reportSighting_endpoint alertId)%string, r)
      (cs_get OFFLINE_ACTIONS (caches w')).
Proof.
  intros Hnd Hin Hparse Hnet w'. subst w'.
  rewrite on_sync_alerts, after_then_ret.
  destruct (run_pass_effect Alerts w Hnd) as (w1 & Hrun & Hlog & Hq).
  unfold after. rewrite Hrun. cbn [snd].
  set (url := (base ++ ApiClient.reportSighting_endpoint alertId)%string)
    in *.
  assert (Hsel : selected Alerts (url, r) = true).
  { unfold selected, url, ApiClient.reportSighting_endpoint. cbn [fst].
    change (pass_marker Alerts) with "/alerts".
    change ("/alerts/" ++ alertId ++ "/sightings")%string
      with ("/alerts" ++ ("/" ++ alertId ++ "/sightings"))%string.
    apply includes_app. }
  assert (Hres : resubmission Alerts (url, r) =
                 Some (new_Request_init "/api/alerts" "POST" json_headers
                         (JSON_stringify data))).
  { unfold resubmission. cbn [fst snd]. now rewrite Hparse. }
  split.
  - rewrite Hlog. apply in_or_app. right.
    apply in_flat_map. exists (url, r). split; [exact Hin|].
    unfold attempts. rewrite Hsel, Hres. now left.
  - rewrite Hq. intros H. apply filter_In in H. destruct H as [_ H].
    unfold replayed in H. rewrite Hsel, Hres in H. cbn in H.
    destruct (network (new_Request_init "/api/alerts" "POST" json_headers
                         (JSON_stringify data)));
      [discriminate | contradiction].
Qed.

Lemma alert_pass_takes_reported_sightings_witness :
  ~ In (("https://cartrace.example/api" ++
         ApiClient.reportSighting_endpoint "42")%string,
        Sample.ok_Response "{}")
      (cs_get OFFLINE_ACTIONS
         (caches (after (on_sync (P := Sample.online Sample.docs)
                           "sync-alerts")
                    Sample.nested_queue))).
Proof.
  assert (Hnd : NoDup (map fst (cs_get OFFLINE_ACTIONS
                                  (caches Sample.nested_queue)))).
  { repeat constructor; cbn; intuition discriminate. }
  refine (proj2 (alert_pass_takes_reported_sightings
                   (Sample.online Sample.docs)
                   "https://cartrace.example/api" "42"
                   (Sample.ok_Response "{}") (JObj [])
                   Sample.nested_queue Hnd (or_introl eq_refl) eq_refl _)).
  discriminate.
Defined.
